(** * dub: request classifier and QR download panel

    A shallow embedding of [components/app/modals/link-qr-modal.tsx] and of
    the middleware helpers [parse] and [detectBot] that accompany it.

    Conventions.
    - A JavaScript string whose code units are all below 256 (header values,
      which are byte strings, and URL path names, which are ASCII) is a Rocq
      [string]; each [ascii] is one code unit.  A string that may hold any
      UTF-16 code unit (the output of [decodeURIComponent]) is a [list N].
    - [null] and [undefined] are [None].
    - Code that can throw returns a [completion]. *)

From Stdlib Require Import Ascii String QArith.
From stdpp Require Import gmap strings list.

Local Open Scope string_scope.

(** ** Completions: normal return or a thrown exception *)

Inductive exn : Type :=
| URIError
| TypeError
| Rejected (reason : string).

Inductive completion (A : Type) : Type :=
| Return (a : A)
| Throw (e : exn).
Arguments Return {A} a.
Arguments Throw {A} e.

Definition cbind {A B} (c : completion A) (k : A → completion B) : completion B :=
  match c with
  | Return a => k a
  | Throw e => Throw e
  end.

Notation "'let*' x ':=' c 'in' k" := (cbind c (fun x => k))
  (at level 10, x name, c at level 100, k at level 200).

Definition cmap {A B} (f : A → B) (c : completion A) : completion B :=
  let* a := c in Return (f a).

(** JavaScript truthiness of a [string | null] value: only a non-empty string
    is truthy. *)
Definition truthy (v : option string) : bool :=
  match v with
  | Some (String _ _) => true
  | _ => false
  end.

(** ** The parts of the JavaScript runtime the source calls *)

Module JS.

Definition code_unit (c : ascii) : N := N_of_ascii c.

Fixpoint code_units (s : string) : list N :=
  match s with
  | "" => []
  | String c t => code_unit c :: code_units t
  end.

(** [String.prototype.split] with a one-character separator and no limit. *)
Fixpoint split (sep : ascii) (s : string) : list string :=
  match s with
  | "" => [""]
  | String c t =>
      if Ascii.eqb c sep then "" :: split sep t
      else match split sep t with
           | h :: r => String c h :: r
           | [] => [String c ""]
           end
  end.

(** *** decodeURIComponent (ECMA-262, abstract operation Decode with an
    empty reserved set) *)

Definition hex_digit (c : ascii) : option N :=
  let n := code_unit c in
  if (48 <=? n)%N && (n <=? 57)%N then Some (n - 48)%N
  else if (65 <=? n)%N && (n <=? 70)%N then Some (n - 55)%N
  else if (97 <=? n)%N && (n <=? 102)%N then Some (n - 87)%N
  else None.

(** The 8-bit value written by two hexadecimal digits. *)
Definition hex_byte (h1 h2 : ascii) : completion N :=
  match hex_digit h1, hex_digit h2 with
  | Some a, Some b => Return (16 * a + b)%N
  | _, _ => Throw URIError
  end.

(** The number of leading 1 bits of an octet. *)
Definition leading_ones (B : N) : nat :=
  if (B <? 128)%N then 0
  else if (B <? 192)%N then 1
  else if (B <? 224)%N then 2
  else if (B <? 240)%N then 3
  else if (B <? 248)%N then 4
  else 5.

(** The [j] escapes [%XX] that must follow the first octet of a multi-byte
    sequence. *)
Fixpoint continuation (j : nat) (r : string) : completion (list N) :=
  match j with
  | O => Return []
  | S j' =>
      match r with
      | String "%" (String a (String b r')) =>
          let* B := hex_byte a b in
          let* rest := continuation j' r' in
          Return (B :: rest)
      | _ => Throw URIError
      end
  end.

Definition is_continuation_octet (B : N) : bool :=
  (128 <=? B)%N && (B <? 192)%N.

(** The code point written by [n] octets, when they are a valid UTF-8
    encoding: continuation octets of the form 10xxxxxx, shortest form, no
    surrogate, at most U+10FFFF. *)
Definition utf8_code_point (n : nat) (B : N) (conts : list N) : completion N :=
  if forallb is_continuation_octet conts then
    let lead := match n with
                | 2 => (B - 192)%N
                | 3 => (B - 224)%N
                | _ => (B - 240)%N
                end in
    let V := fold_left (fun acc c => (64 * acc + (c - 128))%N) conts lead in
    let least := match n with
                 | 2 => 128%N
                 | 3 => 2048%N
                 | _ => 65536%N
                 end in
    if (V <? least)%N then Throw URIError
    else if (55296 <=? V)%N && (V <=? 57343)%N then Throw URIError
    else if (1114111 <? V)%N then Throw URIError
    else Return V
  else Throw URIError.

Definition UTF16EncodeCodePoint (V : N) : list N :=
  if (V <=? 65535)%N then [V]
  else [((V - 65536) / 1024 + 55296)%N; ((V - 65536) mod 1024 + 56320)%N].

(** One escape sequence, read from the text after its first [%]: the code
    units it stands for and how many further code units of the input it
    covers. *)
Definition decode_escape (t : string) : completion (list N * nat) :=
  match t with
  | String h1 (String h2 r) =>
      let* B := hex_byte h1 h2 in
      let n := leading_ones B in
      match n with
      | 0 => Return ([B], 2)
      | 1 => Throw URIError
      | 2 | 3 | 4 =>
          let* conts := continuation (n - 1) r in
          let* V := utf8_code_point n B conts in
          Return (UTF16EncodeCodePoint V, 2 + 3 * (n - 1))
      | _ => Throw URIError
      end
  | _ => Throw URIError
  end.

(** The loop of Decode.  The index [k] of the specification advances over
    the input; here [skip] counts the code units already covered by the
    escape sequence decoded last. *)
Fixpoint Decode (skip : nat) (s : string) : completion (list N) :=
  match s with
  | "" => Return []
  | String C t =>
      match skip with
      | S skip' => Decode skip' t
      | O =>
          if Ascii.eqb C "%" then
            let* esc := decode_escape t in
            let* R := Decode (snd esc) t in
            Return (fst esc ++ R)%list
          else
            let* R := Decode 0 t in
            Return (code_unit C :: R)
      end
  end.

Definition decodeURIComponent (s : string) : completion (list N) :=
  Decode 0 s.

(** [ToString] of a [string | undefined] value. *)
Definition ToString (v : option string) : string :=
  match v with
  | Some s => s
  | None => "undefined"
  end.

(** *** Regular expressions of the shape [/lit1|lit2|.../i]

    Canonicalize for a pattern with the [i] flag and without the [u] flag:
    the code unit of [toUpperCase] when that is a single code unit, except
    that a code unit of 128 or more never maps below 128.  On the code
    units below 256: [a]-[z] and the Latin-1 lower-case letters move down
    by 32, U+00B5 goes to U+039C, U+00FF to U+0178, and U+00DF (whose
    upper case is two code units long) stays. *)
Definition Canonicalize (c : ascii) : N :=
  let n := code_unit c in
  if (97 <=? n)%N && (n <=? 122)%N then (n - 32)%N
  else if (n =? 181)%N then 924%N
  else if (n =? 247)%N then n
  else if (224 <=? n)%N && (n <=? 254)%N then (n - 32)%N
  else if (n =? 255)%N then 376%N
  else n.

(** The literal [lit] matches at the start of [s]. *)
Fixpoint match_literal (lit s : string) : bool :=
  match lit, s with
  | "", _ => true
  | String p lit', String c s' =>
      (Canonicalize p =? Canonicalize c)%N && match_literal lit' s'
  | String _ _, "" => false
  end.

(** [RegExp.prototype.test] of the alternation of the literals [alts]
    (no [g] or [y] flag): a match is tried at every index of [s]. *)
Fixpoint RegExp_test (alts : list string) (s : string) : bool :=
  existsb (fun lit => match_literal lit s) alts
  || match s with
     | "" => false
     | String _ s' => RegExp_test alts s'
     end.

(** Byte-lower-casing, as the [Headers] class applies it to header names. *)
Definition byte_lowercase (c : ascii) : ascii :=
  let n := code_unit c in
  if (65 <=? n)%N && (n <=? 90)%N then ascii_of_N (n + 32) else c.

Fixpoint lowercase (s : string) : string :=
  match s with
  | "" => ""
  | String c t => String (byte_lowercase c) (lowercase t)
  end.

(** [URLSearchParams.prototype.get]: the value of the first pair with the
    given name, or [null]. *)
Fixpoint URLSearchParams_get (name : string) (params : list (string * string))
  : option string :=
  match params with
  | [] => None
  | (n, v) :: rest =>
      if String.eqb n name then Some v else URLSearchParams_get name rest
  end.

(** [Headers.prototype.get]: header names are kept lower-cased and looked
    up without regard to case. *)
Definition Headers_get (name : string) (h : gmap string string) : option string :=
  h !! lowercase name.

End JS.

(** ** The request classifier *)

Module Middleware.

Record NextURL : Type := {
  pathname : string;
  searchParams : list (string * string)
}.

Record NextRequest : Type := {
  headers : gmap string string;
  nextUrl : NextURL
}.

Record Parsed : Type := {
  domain : option string;
  path : string;
  key : list N
}.

(** The alternatives of the regular expression of [detectBot]. *)
Definition bot_pattern : list string :=
  ["bot"; "google"; "baidu"; "bing"; "msn"; "duckduckbot"; "teoma"; "slurp";
   "yandex"; "MetaInspector"].

Definition detectBot (req : NextRequest) : bool :=
  let url := nextUrl req in
  if truthy (JS.URLSearchParams_get "bot" (searchParams url)) then true
  else
    let ua := JS.Headers_get "User-Agent" (headers req) in
    if truthy ua then
      match ua with
      | Some ua => JS.RegExp_test bot_pattern ua
      | None => false
      end
    else false.

Section Parse.

(** [HOME_HOSTNAMES] is imported from [@/lib/constants]: a set of host
    names. *)
Variable HOME_HOSTNAMES : gset string.

(** [Set.prototype.has] on a [string | null] argument. *)
Definition HOME_HOSTNAMES_has (d : option string) : bool :=
  match d with
  | Some h => bool_decide (h ∈ HOME_HOSTNAMES)
  | None => false
  end.

Definition parse (req : NextRequest) : completion Parsed :=
  let domain := JS.Headers_get "host" (headers req) in
  let domain :=
    if HOME_HOSTNAMES_has domain then Some "dewbie.vercel.app" else domain in
  let path := pathname (nextUrl req) in
  let* key := JS.decodeURIComponent (JS.ToString (JS.split "/" path !! 1%nat)) in
  Return {| domain := domain; path := path; key := key |}.

End Parse.

(** *** Vocabulary and sample requests for the properties *)

(** [s] holds no ["/"]. *)
Fixpoint slash_free (s : string) : bool :=
  match s with
  | "" => true
  | String c t => negb (Ascii.eqb c "/") && slash_free t
  end.

Definition sample_request : NextRequest :=
  {| headers := {[ "host" := "dub.sh"; "user-agent" := "Mozilla/5.0 (compatible; Googlebot/2.1)" ]};
     nextUrl := {| pathname := "/github/stars"; searchParams := [] |} |}.

(** A request for [/a?bot] from a browser. *)
Definition empty_bot_request : NextRequest :=
  {| headers := {[ "user-agent" := "Mozilla/5.0 (X11; Linux x86_64) Firefox/118.0" ]};
     nextUrl := {| pathname := "/a"; searchParams := [("bot", "")] |} |}.

(** A request for the Hebrew word shalom, percent-encoded. *)
Definition hebrew_request : NextRequest :=
  {| headers := {[ "host" := "dub.sh" ]};
     nextUrl := {| pathname := "/%D7%A9%D7%9C%D7%95%D7%9D"; searchParams := [] |} |}.

(** [sample_request] with its user agent in capitals. *)
Definition capitals_request : NextRequest :=
  {| headers := {[ "host" := "dub.sh"; "user-agent" := "MOZILLA/5.0 (COMPATIBLE; GOOGLEBOT/2.1)" ]};
     nextUrl := {| pathname := "/github/stars"; searchParams := [] |} |}.

End Middleware.

(** ** The QR download panel *)

Module QRModal.

(** *** Data *)

Record SimpleLinkProps : Type := {
  key : string;
  url : string
}.

(** [useProject()]: both fields are [undefined] while no project is loaded. *)
Record Project : Type := {
  domain : option string;
  logo : option string
}.

(** [window.location]; the panel reads [origin] and [host]. *)
Record Location : Type := {
  origin : string;
  host : string
}.

Record ImageSettings : Type := {
  src : string;
  height : Q;
  width : Q;
  excavate : bool
}.

(** The record held in the [qrData] state, also the argument of
    [getQRAsCanvas]. *)
Record QRProps : Type := {
  value : string;
  bgColor : string;
  fgColor : string;
  size : Q;
  level : string;
  imageSettings : option ImageSettings
}.

(** The object [{...qrData.imageSettings, src: s}]: when [imageSettings] is
    [undefined] the spread adds nothing and only [src] is there. *)
Record SpreadImageSettings : Type := {
  spread_src : string;
  spread_height : option Q;
  spread_width : option Q;
  spread_excavate : option bool
}.

(** The argument of [getQRAsSVGDataUri]. *)
Record SVGProps : Type := {
  svg_value : string;
  svg_bgColor : string;
  svg_fgColor : string;
  svg_size : Q;
  svg_level : string;
  svg_imageSettings : option SpreadImageSettings
}.

(** The props of the on-screen [<QRCodeSVG>]. *)
Record PreviewProps : Type := {
  preview_value : string;
  preview_size : Q;
  preview_bgColor : string;
  preview_fgColor : string;
  preview_level : string;
  includeMargin : bool;
  preview_imageSettings : option ImageSettings
}.

(** The hidden [<a>] element, as far as the panel touches it. *)
Record Anchor : Type := {
  href : string;
  download_attr : string;
  clicks : nat
}.

(** The two pieces of [useState] of [LinkQRModalHelper]. *)
Record State : Type := {
  showLogo : bool;
  qrData : QRProps
}.

Inductive HeaderIcon : Type :=
| BlurImage (src alt : string) (width height : nat)
| Logo.

Record View : Type := {
  header : HeaderIcon;
  preview : PreviewProps
}.

Record SwitchProps : Type := {
  trackDimensions : string;
  thumbDimensions : string;
  thumbTranslate : string;
  disabled : option bool
}.

Record TooltipContent : Type := {
  title : string;
  cta : string;
  ctaLink : string
}.

(** The two ways [AdvancedSettings] renders the logo switch. *)
Inductive LogoControl : Type :=
| WithTooltip (content : TooltipContent) (className : string) (switch : SwitchProps)
| Bare (className : string) (switch : SwitchProps).

(** [a || b] on strings. *)
Definition or_else (a : option string) (b : string) : string :=
  if truthy a then default b a else b.

Definition spread_with_src (im : option ImageSettings) (s : string)
  : SpreadImageSettings :=
  {| spread_src := s;
     spread_height := height <$> im;
     spread_width := width <$> im;
     spread_excavate := excavate <$> im |}.

Definition spread (im : ImageSettings) : SpreadImageSettings :=
  {| spread_src := src im;
     spread_height := Some (height im);
     spread_width := Some (width im);
     spread_excavate := Some (excavate im) |}.

Section Component.

(** Imported from [@/lib/utils] and [@/lib/qr], and the [URL] constructor
    of the browser: [URL_href path base] is [new URL(path, base).href], which
    throws [TypeError] when [base] is no valid URL. *)
Variable getApexDomain : string → completion string.
Variable linkConstructor : string → option string → string.
Variable URL_href : string → string → completion string.
Variable getQRAsSVGDataUri : SVGProps → completion string.
Variable getQRAsCanvas : QRProps → string → completion string.

(** What the hooks and the browser give the component at a render.  The
    project and the plan are loaded over the network and may differ from one
    render to the next. *)
Variable props : SimpleLinkProps.
Variable project : Project.
Variable window : option Location.
Variable plan : option string.

(** The [useMemo] that computes [avatarUrl] and [apexDomain]. *)
Definition favicon : option (string * string) :=
  match getApexDomain (url props) with
  | Return apexDomain =>
      Some ("https://www.google.com/s2/favicons?sz=64&domain_url=" +:+ apexDomain,
            apexDomain)
  | Throw e => None
  end.

(** [const { avatarUrl, apexDomain } = v]: destructuring [null] throws. *)
Definition destructure (v : option (string * string))
  : completion (string * string) :=
  match v with
  | Some o => Return o
  | None => Throw TypeError
  end.

(** The [useMemo] of [qrDestUrl]. *)
Definition qrDestUrl : string :=
  linkConstructor (key props) (domain project).

(** The [useMemo] of [qrLogoUrl].  Its dependency list is empty: it runs at
    the first render only, with the project of that render. *)
Definition qrLogoUrl : completion string :=
  if truthy (logo project) then Return (default "" (logo project))
  else
    match window with
    | Some w =>
        if truthy (Some (origin w)) then URL_href "/_static/logo.svg" (origin w)
        else Return ""
    | None => Return ""
    end.

(** The initial value of [qrData].  [destUrl] and [logoUrl] are the values
    of [qrDestUrl] and [qrLogoUrl] at the first render and [showLogo] is the
    state at the first render; [useState] uses its argument at that render
    only, so later values of the two memos do not reach the state. *)
Definition initial_qrData (destUrl logoUrl : string) (showLogo : bool) : QRProps :=
  {| value := destUrl;
     bgColor := "#ffffff";
     fgColor := "#000000";
     size := 1024;
     level := "Q";
     imageSettings :=
       if showLogo then
         Some {| src := logoUrl; height := 256; width := 256; excavate := true |}
       else None |}.

Definition initial_state (destUrl logoUrl : string) : State :=
  let showLogo := true in
  {| showLogo := showLogo; qrData := initial_qrData destUrl logoUrl showLogo |}.

(** *** State updates *)

(** [setQrData({ ...qrData, fgColor: color })] *)
Definition onChange (color : string) (q : QRProps) : QRProps :=
  {| value := value q;
     bgColor := bgColor q;
     fgColor := color;
     size := size q;
     level := level q;
     imageSettings := imageSettings q |}.

Inductive Event : Type :=
| HexColorPicker_onChange (color : string)
| HexColorInput_onChange (color : string)
| Switch_fn (checked : bool).

Definition handle (ev : Event) (st : State) : State :=
  match ev with
  | HexColorPicker_onChange color =>
      {| showLogo := showLogo st; qrData := onChange color (qrData st) |}
  | HexColorInput_onChange color =>
      {| showLogo := showLogo st; qrData := onChange color (qrData st) |}
  | Switch_fn checked =>
      {| showLogo := checked; qrData := qrData st |}
  end.

Definition run (evs : list Event) (st : State) : State :=
  fold_left (fun s ev => handle ev s) evs st.

(** The states the panel goes through when its state was created from
    [destUrl] and [logoUrl]. *)
Inductive reachable (destUrl logoUrl : string) : State → Prop :=
| reachable_initial : reachable destUrl logoUrl (initial_state destUrl logoUrl)
| reachable_handle ev st :
    reachable destUrl logoUrl st → reachable destUrl logoUrl (handle ev st).

(** *** Rendering *)

(** The props of [<QRCodeSVG>].  Reading [height] of an [undefined]
    [imageSettings] throws. *)
Definition QRCodeSVG_props (st : State) : completion PreviewProps :=
  let q := qrData st in
  let* im :=
    (if showLogo st then
       match imageSettings q with
       | Some im =>
           Return (Some {| src := src im;
                           height := height im / 8;
                           width := width im / 8;
                           excavate := excavate im |})
       | None => Throw TypeError
       end
     else Return None) in
  Return {| preview_value := value q;
            preview_size := size q / 8;
            preview_bgColor := bgColor q;
            preview_fgColor := fgColor q;
            preview_level := level q;
            includeMargin := false;
            preview_imageSettings := im |}.

(** A render with the state [st].  The memo of [qrLogoUrl] is not run again
    after the first render. *)
Definition LinkQRModalHelper (st : State) : completion View :=
  let* fav := destructure favicon in
  let avatarUrl := fst fav in
  let apexDomain := snd fav in
  let* p := QRCodeSVG_props st in
  Return {| header := if truthy (Some avatarUrl)
                      then BlurImage avatarUrl apexDomain 40 40
                      else Logo;
            preview := p |}.

(** The first render: the destructuring, then the two memos, then the state,
    created from their values, then the view. *)
Definition first_render : completion (State * View) :=
  let* fav := destructure favicon in
  let destUrl := qrDestUrl in
  let* logoUrl := qrLogoUrl in
  let st := initial_state destUrl logoUrl in
  let* v := LinkQRModalHelper st in
  Return (st, v).

(** *** Exports *)

Definition svg_options (st : State) : SVGProps :=
  let q := qrData st in
  {| svg_value := value q;
     svg_bgColor := bgColor q;
     svg_fgColor := fgColor q;
     svg_size := size q;
     svg_level := level q;
     svg_imageSettings :=
       if showLogo st then
         Some (spread_with_src (imageSettings q)
                 (or_else (logo project) "https://dewbie.vercel.app/_static/logo.svg"))
       else spread <$> imageSettings q |}.

Definition canvas_options (st : State) : QRProps := qrData st.

(** [download(url, extension)] on [anchorRef.current]. *)
Definition download (url extension : string) (anchorRef : option Anchor)
  : option Anchor :=
  match anchorRef with
  | None => None
  | Some a =>
      Some {| href := url;
              download_attr := key props +:+ "-qrcode." +:+ extension;
              clicks := S (clicks a) |}
  end.

Definition onClick_SVG (st : State) (anchorRef : option Anchor)
  : completion (option Anchor) :=
  let* data := getQRAsSVGDataUri (svg_options st) in
  Return (download data "svg" anchorRef).

Definition onClick_PNG (st : State) (anchorRef : option Anchor)
  : completion (option Anchor) :=
  let* data := getQRAsCanvas (canvas_options st) "image/png" in
  Return (download data "png" anchorRef).

Definition onClick_JPEG (st : State) (anchorRef : option Anchor)
  : completion (option Anchor) :=
  let* data := getQRAsCanvas (canvas_options st) "image/jpeg" in
  Return (download data "jpg" anchorRef).

(** *** The logo switch of [AdvancedSettings] *)

Definition isApp : bool :=
  match window with
  | None => false
  | Some w => String.prefix "app." (host w)
  end.

Definition upgrade_title : string :=
  "As a freemium product, we rely on word of mouth to spread the word about Dub. If you'd like to remove the Dub logo/upload your own, please consider upgrading to a Pro plan.".

Definition logo_switch (disabled : option bool) : SwitchProps :=
  {| trackDimensions := "h-6 w-12";
     thumbDimensions := "w-5 h-5";
     thumbTranslate := "translate-x-6";
     disabled := disabled |}.

Definition logo_control : LogoControl :=
  if negb (truthy plan) || bool_decide (plan = Some "Free") then
    WithTooltip
      {| title := upgrade_title;
         cta := "Upgrade to Pro";
         ctaLink := if isApp then "/settings" else "/#pricing" |}
      "pointer-events-none mt-1 flex cursor-not-allowed items-center space-x-2 sm:pointer-events-auto"
      (logo_switch (Some true))
  else
    Bare "mt-1 flex items-center space-x-2" (logo_switch None).

End Component.

(** *** Vocabulary and sample surroundings for the properties *)

(** The embedded logo of the initial options. *)
Definition default_logo (logoUrl : string) : ImageSettings :=
  {| src := logoUrl; height := 256; width := 256; excavate := true |}.

(** The options record as it stands, as an argument of
    [getQRAsSVGDataUri]. *)
Definition plain_svg_options (q : QRProps) : SVGProps :=
  {| svg_value := value q;
     svg_bgColor := bgColor q;
     svg_fgColor := fgColor q;
     svg_size := size q;
     svg_level := level q;
     svg_imageSettings := spread <$> imageSettings q |}.


(** A hex colour as the colour picker emits it: [#] and three or six
    hexadecimal digits. *)
Fixpoint hex_digits (s : string) : bool :=
  match s with
  | "" => true
  | String c t => bool_decide (is_Some (JS.hex_digit c)) && hex_digits t
  end.

Definition is_hex_color (s : string) : bool :=
  match s with
  | String "#" t =>
      hex_digits t && ((String.length t =? 3)%nat || (String.length t =? 6)%nat)
  | _ => false
  end.

Definition options_valid (q : QRProps) : Prop :=
  is_hex_color (bgColor q) = true ∧ is_hex_color (fgColor q) = true ∧ (0 < size q)%Q.

(** The colour an event carries, if any, is a hex colour: what the colour
    picker and the colour input promise. *)
Definition emits_valid (ev : Event) : Prop :=
  match ev with
  | HexColorPicker_onChange color => is_hex_color color = true
  | HexColorInput_onChange color => is_hex_color color = true
  | Switch_fn _ => True
  end.

Definition switch_of (c : LogoControl) : SwitchProps :=
  match c with
  | WithTooltip _ _ sw => sw
  | Bare _ sw => sw
  end.

Definition switch_disabled (c : LogoControl) : bool :=
  bool_decide (disabled (switch_of c) = Some true).

(** The colour, or the switch position, an event carries. *)
Definition color_of (ev : Event) : option string :=
  match ev with
  | HexColorPicker_onChange color => Some color
  | HexColorInput_onChange color => Some color
  | Switch_fn _ => None
  end.

Definition checked_of (ev : Event) : option bool :=
  match ev with
  | Switch_fn checked => Some checked
  | _ => None
  end.

Definition favicon_url (apexDomain : string) : string :=
  "https://www.google.com/s2/favicons?sz=64&domain_url=" +:+ apexDomain.

(** Sample surroundings of the component. *)
Definition sample_props : SimpleLinkProps :=
  {| key := "github"; url := "https://github.com/steven-tey/dub" |}.

Definition broken_props : SimpleLinkProps :=
  {| key := "oops"; url := "not a url" |}.

Definition sample_project : Project :=
  {| domain := Some "dub.sh"; logo := None |}.

Definition sample_window : option Location :=
  Some {| origin := "https://app.dub.sh"; host := "app.dub.sh" |}.

Definition sample_linkConstructor (k : string) (d : option string) : string :=
  "https://" +:+ default "dub.sh" d +:+ "/" +:+ k.

(** Throws on a base that is no http(s) URL, such as the origin ["null"] of
    a sandboxed page. *)
Definition sample_URL_href (p base : string) : completion string :=
  if String.prefix "https://" base || String.prefix "http://" base
  then Return (base +:+ p) else Throw TypeError.

Definition sandboxed_window : option Location :=
  Some {| origin := "null"; host := "" |}.

(** Throws on what is not an absolute http(s) URL, as [new URL(url)] does. *)
Definition sample_getApexDomain (u : string) : completion string :=
  if String.prefix "https://" u || String.prefix "http://" u
  then Return "github.com" else Throw TypeError.

Definition sample_getQRAsSVGDataUri (o : SVGProps) : completion string :=
  Return ("data:image/svg+xml," +:+ svg_value o).

Definition sample_getQRAsCanvas (q : QRProps) (type : string) : completion string :=
  Return ("data:" +:+ type +:+ ";base64," +:+ value q).

(** Shows the [src] of the embedded logo it is handed. *)
Definition logo_src_renderer (o : SVGProps) : completion string :=
  Return (match svg_imageSettings o with
          | Some im => spread_src im
          | None => ""
          end).

Definition sample_destUrl : string :=
  qrDestUrl sample_linkConstructor sample_props sample_project.

Definition sample_logoUrl : string := "https://app.dub.sh/_static/logo.svg".

(** The state the first render creates in the sample surroundings. *)
Definition sample_initial : State := initial_state sample_destUrl sample_logoUrl.

Definition sample_logo_off : State := handle (Switch_fn false) sample_initial.

Definition sample_anchor : Anchor :=
  {| href := ""; download_attr := "github-qrcode.svg"; clicks := 0 |}.

Definition branded_project : Project :=
  {| domain := Some "acme.co"; logo := Some "https://acme.co/logo.png" |}.

Definition branded_initial : State :=
  initial_state (qrDestUrl sample_linkConstructor sample_props branded_project)
    "https://acme.co/logo.png".

(** The project while it is still loading. *)
Definition loading_project : Project := {| domain := None; logo := None |}.

(** The state of a panel mounted while the project was loading. *)
Definition early_initial : State :=
  initial_state (qrDestUrl sample_linkConstructor sample_props loading_project)
    sample_logoUrl.

End QRModal.

(** ** Vocabulary on strings, for the properties of [parse] and [detectBot] *)

(** [s] holds no ["%"]. *)
Fixpoint percent_free (s : string) : bool :=
  match s with
  | "" => true
  | String c t => negb (Ascii.eqb c "%") && percent_free t
  end.

(** An ASCII letter. *)
Definition is_letter (c : ascii) : bool :=
  let n := JS.code_unit c in
  ((65 <=? n)%N && (n <=? 90)%N) || ((97 <=? n)%N && (n <=? 122)%N).

Fixpoint letters (s : string) : bool :=
  match s with
  | "" => true
  | String c t => is_letter c && letters t
  end.

(** [s] starts with [lit], up to the case of ASCII letters. *)
Definition starts_with_ci (lit s : string) : Prop :=
  ∃ mid post, s = mid +:+ post ∧ JS.lowercase mid = JS.lowercase lit.

(** [s] contains [lit] as a substring, up to the case of ASCII letters. *)
Definition contains_ci (lit s : string) : Prop :=
  ∃ pre mid post, s = pre +:+ mid +:+ post ∧ JS.lowercase mid = JS.lowercase lit.

(** ** Vocabulary on code units and UTF-8, for the properties of the key *)

Definition is_high_surrogate (u : N) : bool := (55296 <=? u)%N && (u <=? 56319)%N.
Definition is_low_surrogate (u : N) : bool := (56320 <=? u)%N && (u <=? 57343)%N.

(** A well-formed UTF-16 string: 16-bit code units in which every surrogate
    is half of a high-low pair. *)
Fixpoint well_formed_utf16 (l : list N) : bool :=
  match l with
  | [] => true
  | u :: r =>
      if is_high_surrogate u then
        match r with
        | lo :: r' => is_low_surrogate lo && well_formed_utf16 r'
        | [] => false
        end
      else negb (is_low_surrogate u) && (u <? 65536)%N && well_formed_utf16 r
  end.

(** A Unicode scalar value: a code point that is no surrogate. *)
Definition is_scalar_value (V : N) : bool :=
  (V <? 55296)%N || ((57343 <? V)%N && (V <=? 1114111)%N).

(** The UTF-8 encoding of a scalar value (RFC 3629). *)
Definition utf8_octets (V : N) : list N :=
  if (V <? 128)%N then [V]
  else if (V <? 2048)%N then [192 + V / 64; 128 + V mod 64]%N
  else if (V <? 65536)%N then
    [224 + V / 4096; 128 + (V / 64) mod 64; 128 + V mod 64]%N
  else
    [240 + V / 262144; 128 + (V / 4096) mod 64; 128 + (V / 64) mod 64;
     128 + V mod 64]%N.

(** The upper-case hexadecimal digit of a value below 16. *)
Definition hex_char (n : N) : ascii :=
  if (n <? 10)%N then ascii_of_N (48 + n) else ascii_of_N (55 + n).

(** The escape [%XX] of an octet. *)
Definition percent_octet (B : N) : string :=
  String "%" (String (hex_char (B / 16)) (String (hex_char (B mod 16)) "")).

Fixpoint percent_octets (Bs : list N) : string :=
  match Bs with
  | [] => ""
  | B :: r => percent_octet B +:+ percent_octets r
  end.

(** The regular expression of [detectBot] without its [duckduckbot]
    alternative. *)
Definition bot_pattern_without_duckduckbot : list string :=
  ["bot"; "google"; "baidu"; "bing"; "msn"; "teoma"; "slurp"; "yandex";
   "MetaInspector"].

(** The characters [encodeURIComponent] leaves as they are: letters, digits
    and [- _ . ! ~ * ' ( )]. *)
Definition is_unreserved (V : N) : bool :=
  ((65 <=? V)%N && (V <=? 90)%N) || ((97 <=? V)%N && (V <=? 122)%N)
  || ((48 <=? V)%N && (V <=? 57)%N)
  || bool_decide (V ∈ [45; 95; 46; 33; 126; 42; 39; 40; 41]%N).

(** [encodeURIComponent] (ECMA-262, Encode) on the code points of a
    well-formed string: unreserved characters stay, every other scalar value
    becomes the escapes of its UTF-8 octets. *)
Fixpoint encodeURIComponent (Vs : list N) : string :=
  match Vs with
  | [] => ""
  | V :: r =>
      (if is_unreserved V then String (ascii_of_N V) ""
       else percent_octets (utf8_octets V)) +:+ encodeURIComponent r
  end.

(** * Properties *)

(** ** Strings *)

Section StringFacts.

Lemma append_String c (s t : string) : String c s +:+ t = String c (s +:+ t).
Proof. reflexivity. Qed.

Lemma all_ascii (P : ascii → bool) :
  forallb (fun n => P (ascii_of_nat n)) (seq 0 256) = true → ∀ c, P c = true.
Proof.
  intros HP c. rewrite forallb_forall in HP.
  rewrite <- (ascii_nat_embedding c). apply HP.
  apply in_seq. pose proof (nat_ascii_bounded c). lia.
Qed.

Lemma all_ascii2 (P : ascii → ascii → bool) :
  forallb (fun n => forallb (fun m => P (ascii_of_nat n) (ascii_of_nat m)) (seq 0 256))
    (seq 0 256) = true →
  ∀ c d, P c d = true.
Proof.
  intros HP c d.
  apply (all_ascii (fun d => P c d)).
  revert c. apply (all_ascii (fun c => forallb (fun m => P c (ascii_of_nat m)) (seq 0 256))).
  exact HP.
Qed.

End StringFacts.

(** ** decodeURIComponent *)

(** Text without escapes decodes to itself. *)
Lemma decodeURIComponent_plain s :
  percent_free s = true → JS.decodeURIComponent s = Return (JS.code_units s).
Proof.
  unfold JS.decodeURIComponent.
  induction s as [|c s IH]; simpl; intros Hs; [done|].
  apply andb_true_iff in Hs as [Hc Hs]. apply negb_true_iff in Hc.
  by rewrite Hc, (IH Hs).
Qed.

(** The word shalom in Hebrew letters, four two-octet sequences. *)
Example decodeURIComponent_hebrew :
  JS.decodeURIComponent "%D7%A9%D7%9C%D7%95%D7%9D"
  = Return [1513; 1500; 1493; 1501]%N.
Proof. reflexivity. Qed.

(** An escape outside the Basic Multilingual Plane gives a surrogate pair. *)
Example decodeURIComponent_astral :
  JS.decodeURIComponent "a%F0%9F%98%80" = Return [97; 55357; 56832]%N.
Proof. reflexivity. Qed.

(** Overlong forms, surrogates and cut-off sequences are refused. *)
Example decodeURIComponent_malformed :
  JS.decodeURIComponent "%C0%80" = Throw URIError
  ∧ JS.decodeURIComponent "%ED%A0%80" = Throw URIError
  ∧ JS.decodeURIComponent "%E2%82" = Throw URIError
  ∧ JS.decodeURIComponent "%4" = Throw URIError
  ∧ JS.decodeURIComponent "%80" = Throw URIError.
Proof. repeat split. Qed.

(** ** Case-insensitive matching *)

Lemma Canonicalize_letter p c :
  is_letter p = true →
  (JS.Canonicalize p =? JS.Canonicalize c)%N
  = Ascii.eqb (JS.byte_lowercase c) (JS.byte_lowercase p).
Proof.
  intros Hp.
  pose proof (all_ascii2
    (fun p c => implb (is_letter p)
       (Bool.eqb (JS.Canonicalize p =? JS.Canonicalize c)%N
                 (Ascii.eqb (JS.byte_lowercase c) (JS.byte_lowercase p))))) as H.
  specialize (H ltac:(vm_compute; reflexivity) p c).
  cbv beta in H. rewrite Hp in H. simpl in H. by apply Bool.eqb_prop in H.
Qed.

Lemma match_literal_spec lit s :
  letters lit = true →
  JS.match_literal lit s = true ↔ starts_with_ci lit s.
Proof.
  revert s. induction lit as [|p lit IH]; intros s Hl.
  - split; [|by destruct s].
    intros _. by exists "", s.
  - simpl in Hl. apply andb_true_iff in Hl as [Hp Hl].
    destruct s as [|c s]; simpl.
    + split; [done|]. intros ([|? ?] & post & Heq & Hlow); discriminate.
    + rewrite andb_true_iff, (Canonicalize_letter _ _ Hp), (IH s Hl).
      split.
      * intros [Hc (mid & post & -> & Hlow)].
        apply Ascii.eqb_eq in Hc.
        exists (String c mid), post. split; [done|].
        simpl. by rewrite Hc, Hlow.
      * intros ([|c' mid] & post & Heq & Hlow); [discriminate|].
        rewrite append_String in Heq. injection Heq as -> ->.
        simpl in Hlow. injection Hlow as Hc Hlow.
        split; [by apply Ascii.eqb_eq|]. by exists mid, post.
Qed.

Lemma RegExp_test_spec alts s :
  forallb letters alts = true →
  JS.RegExp_test alts s = true ↔ ∃ lit, lit ∈ alts ∧ contains_ci lit s.
Proof.
  intros Hl. rewrite forallb_forall in Hl.
  assert (Hhere : ∀ s, existsb (fun lit => JS.match_literal lit s) alts = true
                       ↔ ∃ lit, lit ∈ alts ∧ starts_with_ci lit s).
  { intros s'. rewrite existsb_exists. split.
    - intros (lit & Hin & Hm). exists lit. split; [by apply list_elem_of_In|].
      apply match_literal_spec; auto.
    - intros (lit & Hin & Hm). apply list_elem_of_In in Hin. exists lit.
      split; [done|]. apply match_literal_spec; auto. }
  induction s as [|c s IH].
  - simpl. rewrite orb_false_r, Hhere. split.
    + intros (lit & Hin & mid & post & Heq & Hlow).
      exists lit. split; [done|]. by exists "", mid, post.
    + intros (lit & Hin & pre & mid & post & Heq & Hlow).
      exists lit. split; [done|]. destruct pre; [|discriminate].
      by exists mid, post.
  - simpl. rewrite orb_true_iff, Hhere, IH. split.
    + intros [(lit & Hin & mid & post & Heq & Hlow) | (lit & Hin & pre & mid & post & Heq & Hlow)];
        exists lit; (split; [done|]).
      * by exists "", mid, post.
      * exists (String c pre), mid, post. by rewrite Heq.
    + intros (lit & Hin & [|c' pre] & mid & post & Heq & Hlow).
      * left. exists lit. split; [done|]. by exists mid, post.
      * right. rewrite append_String in Heq. injection Heq as -> ->.
        exists lit. split; [done|]. by exists pre, mid, post.
Qed.

(** ** The request classifier *)

Section MiddlewareFacts.

Import Middleware.

Lemma bot_pattern_letters : forallb letters bot_pattern = true.
Proof. reflexivity. Qed.

Lemma truthy_spec v : truthy v = true ↔ ∃ s, v = Some s ∧ s ≠ "".
Proof.
  destruct v as [[|c s]|]; simpl; split; try done.
  - by intros (s & [= <-] & Hs).
  - intros _. by exists (String c s).
  - by intros (s & [=] & _).
Qed.

(** C1, as the code has it: [detectBot] returns true exactly when the first
    [bot] query parameter has a non-empty value, or the [User-Agent] header
    contains one of the known bot substrings up to the case of letters; in
    every other case it returns false. *)
Theorem detectBot_spec (req : NextRequest) :
  detectBot req = true ↔
    (∃ v, JS.URLSearchParams_get "bot" (searchParams (nextUrl req)) = Some v ∧ v ≠ "")
    ∨ (∃ ua, JS.Headers_get "User-Agent" (headers req) = Some ua
             ∧ ∃ lit, lit ∈ bot_pattern ∧ contains_ci lit ua).
Proof.
  unfold detectBot.
  rewrite <- truthy_spec.
  destruct (truthy (JS.URLSearchParams_get "bot" _)) eqn:Hbot.
  { split; auto. }
  destruct (JS.Headers_get "User-Agent" (headers req)) as [ua|] eqn:Hua.
  - pose proof (RegExp_test_spec bot_pattern ua bot_pattern_letters) as Htest.
    destruct ua as [|c ua]; simpl truthy; cbv iota.
    + split; [done|]. intros [|(ua & [= <-] & Hm)]; [done|].
      by apply Htest in Hm.
    + rewrite Htest. split.
      * intros Hm. right. by exists (String c ua).
      * by intros [|(ua' & [= <-] & Hm)].
  - simpl. split; [done|]. by intros [|(ua & [=] & _)].
Qed.

(** C1, the claim as written fails: the [bot] parameter is present, with an
    empty value, and [detectBot] returns false. *)
Lemma detectBot_empty_bot_parameter :
  is_Some (JS.URLSearchParams_get "bot" (searchParams (nextUrl empty_bot_request)))
  ∧ detectBot empty_bot_request = false.
Proof. split; [by eexists | reflexivity]. Qed.

Lemma split_head seg tail :
  slash_free seg = true →
  tail = "" ∨ (∃ t, tail = String "/" t) →
  ∃ r, JS.split "/" (seg +:+ tail) = seg :: r.
Proof.
  induction seg as [|c seg IH]; simpl; intros Hfree Htail.
  - destruct Htail as [-> | [t ->]]; simpl; eauto.
  - apply andb_true_iff in Hfree as [Hc Hfree].
    apply negb_true_iff in Hc. rewrite Hc.
    destruct (IH Hfree Htail) as [r ->]. eauto.
Qed.

(** C2: when the path name is ["/"], then a segment without ["/"], then
    nothing or a ["/"] and more, [parse] returns exactly when
    [decodeURIComponent] of the segment does, and the key is its result. *)
Theorem parse_key (HOME_HOSTNAMES : gset string) (req : NextRequest) (seg tail : string) :
  pathname (nextUrl req) = String "/" (seg +:+ tail) →
  slash_free seg = true →
  tail = "" ∨ (∃ t, tail = String "/" t) →
  cmap key (parse HOME_HOSTNAMES req) = JS.decodeURIComponent seg.
Proof.
  intros Hpath Hfree Htail. unfold parse. rewrite Hpath.
  destruct (split_head seg tail) as [r Hr]; auto.
  simpl JS.split. rewrite Hr. simpl.
  by destruct (JS.decodeURIComponent seg).
Qed.

Lemma parse_key_sample :
  cmap key (parse {[ "dub.sh" ]} sample_request) = Return (JS.code_units "github").
Proof.
  etransitivity.
  - apply (parse_key {[ "dub.sh" ]} sample_request "github" "/stars").
    + reflexivity.
    + reflexivity.
    + right. by exists "stars".
  - reflexivity.
Defined.

(** C3: the domain [parse] returns is ["dewbie.vercel.app"] when the [Host]
    header is in [HOME_HOSTNAMES], and the value of the [Host] header, absent
    or not, otherwise. *)
Theorem parse_domain (HOME_HOSTNAMES : gset string) (req : NextRequest) (r : Parsed) :
  parse HOME_HOSTNAMES req = Return r →
  (∀ h, JS.Headers_get "host" (headers req) = Some h → h ∈ HOME_HOSTNAMES →
        domain r = Some "dewbie.vercel.app")
  ∧ ((∀ h, JS.Headers_get "host" (headers req) = Some h → h ∉ HOME_HOSTNAMES) →
     domain r = JS.Headers_get "host" (headers req)).
Proof.
  unfold parse. intros Hr.
  destruct (JS.decodeURIComponent _) as [k|e]; [|discriminate].
  injection Hr as <-. simpl. unfold HOME_HOSTNAMES_has.
  destruct (JS.Headers_get "host" (headers req)) as [h|]; split.
  - intros h' [= <-] Hin. by rewrite bool_decide_eq_true_2.
  - intros Hnot. by rewrite bool_decide_eq_false_2; [|apply Hnot].
  - by intros h' [=].
  - done.
Qed.

Lemma parse_domain_sample :
  ∃ r, parse {[ "dub.sh" ]} sample_request = Return r
       ∧ domain r = Some "dewbie.vercel.app".
Proof.
  eexists. split; [vm_compute; reflexivity|].
  eapply (parse_domain {[ "dub.sh" ]} sample_request).
  - vm_compute; reflexivity.
  - vm_compute; reflexivity.
  - set_solver.
Defined.

(** C8: [parse] is not total.  A request for [/%E0] makes it throw
    [URIError], whatever the headers, the query and [HOME_HOSTNAMES]. *)
Theorem parse_throws_URIError (HOME_HOSTNAMES : gset string)
    (hs : gmap string string) (params : list (string * string)) :
  parse HOME_HOSTNAMES
    {| headers := hs; nextUrl := {| pathname := "/%E0"; searchParams := params |} |}
  = Throw URIError.
Proof. reflexivity. Qed.

End MiddlewareFacts.

(** ** The QR download panel *)

Section QRModalFacts.

Import QRModal.

Variable getApexDomain : string → completion string.
Variable props : SimpleLinkProps.
Variable window : option Location.

(** The project as it is at the render or click at hand, and the values the
    memos [qrDestUrl] and [qrLogoUrl] had at the first render. *)
Variable project : Project.
Variable destUrl logoUrl : string.

Local Abbreviation initial := (initial_state destUrl logoUrl).
Local Abbreviation reachable := (reachable destUrl logoUrl).
Local Abbreviation render := (LinkQRModalHelper getApexDomain props).
Local Abbreviation default_logo := (QRModal.default_logo logoUrl).

(** *** Invariants of the state *)

Lemma reachable_qrData st :
  reachable st →
  value (qrData st) = destUrl
  ∧ bgColor (qrData st) = "#ffffff"
  ∧ size (qrData st) = 1024%Q
  ∧ level (qrData st) = "Q"
  ∧ imageSettings (qrData st) = Some default_logo.
Proof.
  induction 1 as [|ev st Hst IH].
  - repeat split.
  - destruct ev; simpl; exact IH.
Qed.

Lemma reachable_run evs st : reachable st → reachable (run evs st).
Proof.
  revert st. induction evs as [|ev evs IH]; intros st Hst; simpl.
  - exact Hst.
  - apply IH. by constructor.
Qed.

Lemma handle_valid ev st :
  options_valid (qrData st) → emits_valid ev → options_valid (qrData (handle ev st)).
Proof.
  intros (Hbg & Hfg & Hsize) Hev.
  destruct ev; simpl in *; repeat split; assumption.
Qed.

Lemma initial_valid : options_valid (qrData initial).
Proof. repeat split. Qed.

(** Along any run whose colour events carry hex colours, the options stay
    valid. *)
Lemma run_valid evs st :
  options_valid (qrData st) → Forall emits_valid evs →
  options_valid (qrData (run evs st)).
Proof.
  intros Hst Hevs. revert st Hst.
  induction Hevs as [|ev evs Hev _ IH]; intros st Hst; simpl.
  - exact Hst.
  - apply IH. by apply handle_valid.
Qed.

(** The generic logo glyph is never rendered: [avatarUrl], a template
    string with a non-empty literal part, is always truthy. *)
Lemma header_never_Logo st v : render st = Return v → header v ≠ Logo.
Proof.
  unfold LinkQRModalHelper, favicon.
  destruct (getApexDomain (url props)); simpl; [|discriminate].
  destruct (QRCodeSVG_props st); simpl; [|discriminate].
  by intros [= <-].
Qed.

(** C4, what the code does when [getApexDomain] throws: the [catch] makes
    the memo [null], destructuring it throws [TypeError], and the panel
    renders nothing at all, neither favicon nor logo glyph. *)
Theorem favicon_failure_throws (e : exn) (st : State) :
  getApexDomain (url props) = Throw e →
  favicon getApexDomain props = None ∧ render st = Throw TypeError.
Proof.
  intros He. unfold LinkQRModalHelper, favicon. by rewrite He.
Qed.

(** C5, as the code has it: in every state of the panel with the logo
    switched off, the PNG and the JPEG button call [getQRAsCanvas] on
    options that still hold the [imageSettings] of the initial state,
    while the on-screen preview has no [imageSettings]. *)
Theorem logo_off_exports (st : State) :
  reachable st → showLogo st = false →
  ∃ q,
    imageSettings q = imageSettings (qrData initial)
    ∧ imageSettings q = Some default_logo
    ∧ (∀ getQRAsCanvas anchorRef,
         onClick_PNG getQRAsCanvas props st anchorRef
         = let* data := getQRAsCanvas q "image/png" in
           Return (download props data "png" anchorRef))
    ∧ (∀ getQRAsCanvas anchorRef,
         onClick_JPEG getQRAsCanvas props st anchorRef
         = let* data := getQRAsCanvas q "image/jpeg" in
           Return (download props data "jpg" anchorRef))
    ∧ ∃ p, QRCodeSVG_props st = Return p ∧ preview_imageSettings p = None.
Proof.
  intros Hst Hoff. exists (qrData st).
  destruct (reachable_qrData st Hst) as (_ & _ & _ & _ & Him).
  repeat split; try done.
  unfold QRCodeSVG_props. rewrite Hoff. simpl. eauto.
Qed.

(** C6: for a plan that is absent or a named tier, the logo switch is
    rendered disabled, inside the upgrade tooltip and a wrapper without
    pointer events, exactly when the plan is absent or is ["Free"]; for every
    other tier it is rendered bare and enabled. *)
Theorem logo_switch_gate (plan : option string) :
  plan ≠ Some "" →
  let c := logo_control window plan in
  (switch_disabled c = true ↔ plan = None ∨ plan = Some "Free")
  ∧ (switch_disabled c = true →
       ∃ content, c = WithTooltip content
         "pointer-events-none mt-1 flex cursor-not-allowed items-center space-x-2 sm:pointer-events-auto"
         (logo_switch (Some true))
       ∧ cta content = "Upgrade to Pro")
  ∧ (switch_disabled c = false →
       c = Bare "mt-1 flex items-center space-x-2" (logo_switch None)).
Proof.
  intros Hname. unfold logo_control.
  destruct plan as [[|ch s]|]; simpl.
  - done.
  - case_bool_decide as Hfree; simpl.
    + repeat split; eauto. discriminate.
    + repeat split; try done.
      intros [|?]; congruence.
  - repeat split; eauto. discriminate.
Qed.

(** C7, as the code has it: the PNG and the JPEG button call the external
    renderer on the options record as it stands, the SVG button on a copy of
    it in which, when the logo is shown, the [src] of the embedded logo is
    the logo of the project or else the fixed
    [https://dewbie.vercel.app/_static/logo.svg].  When the renderer
    resolves and the hidden anchor is mounted, the anchor gets the rendered
    data as its [href], the file name [key-qrcode.ext] with [ext] svg, png
    or jpg, and one click; when the anchor is not mounted nothing happens. *)
Theorem download_click (st : State) (anchorRef : option Anchor) :
  let q := qrData st in
  let saved (ext data : string) :=
    match anchorRef with
    | Some a =>
        Some {| href := data;
                download_attr := key props +:+ "-qrcode." +:+ ext;
                clicks := S (clicks a) |}
    | None => None
    end in
  let svg_logo :=
    if showLogo st then
      Some {| spread_src :=
                match logo project with
                | Some (String c l) => String c l
                | _ => "https://dewbie.vercel.app/_static/logo.svg"
                end;
              spread_height := height <$> imageSettings q;
              spread_width := width <$> imageSettings q;
              spread_excavate := excavate <$> imageSettings q |}
    else
      match imageSettings q with
      | Some im =>
          Some {| spread_src := src im;
                  spread_height := Some (height im);
                  spread_width := Some (width im);
                  spread_excavate := Some (excavate im) |}
      | None => None
      end in
  (∀ getQRAsSVGDataUri,
     onClick_SVG getQRAsSVGDataUri props project st anchorRef
     = let* data := getQRAsSVGDataUri
                      {| svg_value := value q;
                         svg_bgColor := bgColor q;
                         svg_fgColor := fgColor q;
                         svg_size := size q;
                         svg_level := level q;
                         svg_imageSettings := svg_logo |} in
       Return (saved "svg" data))
  ∧ (∀ getQRAsCanvas,
       onClick_PNG getQRAsCanvas props st anchorRef
       = let* data := getQRAsCanvas q "image/png" in Return (saved "png" data))
  ∧ (∀ getQRAsCanvas,
       onClick_JPEG getQRAsCanvas props st anchorRef
       = let* data := getQRAsCanvas q "image/jpeg" in Return (saved "jpg" data)).
Proof.
  unfold onClick_SVG, onClick_PNG, onClick_JPEG, svg_options, canvas_options,
    download, spread_with_src, or_else.
  cbv zeta. split; [|split]; intros renderer.
  - destruct (showLogo st).
    + by destruct (logo project) as [[|c l]|].
    + by destruct (imageSettings (qrData st)).
  - reflexivity.
  - reflexivity.
Qed.

(** C9: the initial options have background [#ffffff], foreground
    [#000000] and size 1024 and are valid; every update the component
    makes keeps valid options valid when the colour it is handed is a
    hex colour, and leaves size and background as they are.  The
    component checks nothing itself: it stores whatever colour it is
    handed. *)
Theorem qrData_invariant (st : State) (ev : Event) :
  options_valid (qrData st) → emits_valid ev →
  (bgColor (qrData initial) = "#ffffff"
   ∧ fgColor (qrData initial) = "#000000"
   ∧ size (qrData initial) = 1024%Q
   ∧ options_valid (qrData initial))
  ∧ (options_valid (qrData (handle ev st))
     ∧ size (qrData (handle ev st)) = size (qrData st)
     ∧ bgColor (qrData (handle ev st)) = bgColor (qrData st))
  ∧ (∀ color,
       fgColor (qrData (handle (HexColorPicker_onChange color) st)) = color
       ∧ fgColor (qrData (handle (HexColorInput_onChange color) st)) = color).
Proof.
  intros Hst Hev. split; [|split].
  - repeat split.
  - split; [by apply handle_valid|]. by destruct ev.
  - done.
Qed.


End QRModalFacts.

Section QRModalSamples.

Import QRModal.

Lemma favicon_failure_throws_sample :
  favicon sample_getApexDomain broken_props = None
  ∧ LinkQRModalHelper sample_getApexDomain broken_props sample_initial = Throw TypeError.
Proof.
  apply (favicon_failure_throws sample_getApexDomain broken_props TypeError sample_initial).
  reflexivity.
Defined.

Lemma logo_off_exports_sample :
  ∃ q,
    imageSettings q = imageSettings (qrData sample_initial)
    ∧ imageSettings q = Some (default_logo sample_logoUrl)
    ∧ (∀ getQRAsCanvas anchorRef,
         onClick_PNG getQRAsCanvas sample_props sample_logo_off anchorRef
         = let* data := getQRAsCanvas q "image/png" in
           Return (download sample_props data "png" anchorRef))
    ∧ (∀ getQRAsCanvas anchorRef,
         onClick_JPEG getQRAsCanvas sample_props sample_logo_off anchorRef
         = let* data := getQRAsCanvas q "image/jpeg" in
           Return (download sample_props data "jpg" anchorRef))
    ∧ ∃ p, QRCodeSVG_props sample_logo_off = Return p ∧ preview_imageSettings p = None.
Proof.
  apply (logo_off_exports sample_props sample_destUrl sample_logoUrl sample_logo_off).
  - apply reachable_handle, reachable_initial.
  - reflexivity.
Defined.

(** C5, the claim as written fails: with the logo switched off the options
    handed to the SVG exporter still hold the embedded logo. *)
Lemma logo_off_svg_keeps_logo :
  showLogo sample_logo_off = false
  ∧ svg_imageSettings (svg_options sample_project sample_logo_off)
    = Some {| spread_src := "https://app.dub.sh/_static/logo.svg";
              spread_height := Some 256%Q;
              spread_width := Some 256%Q;
              spread_excavate := Some true |}.
Proof. split; reflexivity. Qed.

(** The empty string counts as no plan: the switch is disabled for it. *)
Lemma empty_plan_disables_switch :
  switch_disabled (logo_control sample_window (Some "")) = true.
Proof. reflexivity. Qed.

Lemma logo_switch_gate_sample :
  switch_disabled (logo_control sample_window (Some "Pro")) = false
  ∧ logo_control sample_window (Some "Pro")
    = Bare "mt-1 flex items-center space-x-2" (logo_switch None).
Proof.
  destruct (logo_switch_gate sample_window (Some "Pro")) as (_ & _ & Hbare).
  - discriminate.
  - split; [reflexivity|]. apply Hbare. reflexivity.
Defined.

(** C7, the claim as written fails: with the logo shown, the SVG button
    hands the renderer another logo than the one in the options record. *)
Lemma svg_click_overrides_logo :
  onClick_SVG logo_src_renderer sample_props sample_project sample_initial
    (Some sample_anchor)
  = Return (Some {| href := "https://dewbie.vercel.app/_static/logo.svg";
                    download_attr := "github-qrcode.svg";
                    clicks := 1 |})
  ∧ logo_src_renderer (plain_svg_options (qrData sample_initial))
    = Return "https://app.dub.sh/_static/logo.svg".
Proof. split; reflexivity. Qed.

Lemma download_click_sample :
  onClick_PNG sample_getQRAsCanvas sample_props sample_initial (Some sample_anchor)
  = Return (Some {| href := "data:image/png;base64,https://dub.sh/github";
                    download_attr := "github-qrcode.png";
                    clicks := 1 |}).
Proof.
  destruct (download_click sample_props sample_project sample_initial
              (Some sample_anchor)) as (_ & Hpng & _).
  rewrite Hpng. reflexivity.
Defined.

Lemma qrData_invariant_sample :
  options_valid (qrData (handle (HexColorInput_onChange "#1f2937") sample_initial))
  ∧ size (qrData (handle (HexColorInput_onChange "#1f2937") sample_initial))
    = size (qrData sample_initial)
  ∧ bgColor (qrData (handle (HexColorInput_onChange "#1f2937") sample_initial))
    = bgColor (qrData sample_initial).
Proof.
  apply (qrData_invariant sample_destUrl sample_logoUrl sample_initial
           (HexColorInput_onChange "#1f2937")).
  - repeat split.
  - reflexivity.
Defined.


End QRModalSamples.

(** * Further properties of the request classifier *)

Section SplitFacts.

Import Middleware.

Lemma split_nonempty sep s : JS.split sep s ≠ [].
Proof.
  destruct s as [|c t]; simpl; [done|].
  destruct (Ascii.eqb c sep); [done|]. by destruct (JS.split sep t).
Qed.

(** X1: the segments [split] cuts a path into hold no ["/"], and joined with
    ["/"] they give the path back. *)
Theorem split_join (s : string) :
  String.concat "/" (JS.split "/" s) = s
  ∧ Forall (fun seg => slash_free seg = true) (JS.split "/" s).
Proof.
  induction s as [|c t [IHj IHf]]; simpl.
  - split; [done|]. by repeat constructor.
  - destruct (Ascii.eqb c "/") eqn:Hc.
    + apply Ascii.eqb_eq in Hc as ->. split.
      * pose proof (split_nonempty "/" t) as Hne.
        destruct (JS.split "/" t) as [|h r]; [done|].
        change (String.concat "/" ("" :: h :: r))
          with (String "/" (String.concat "/" (h :: r))).
        by rewrite IHj.
      * by constructor.
    + pose proof (split_nonempty "/" t) as Hne.
      destruct (JS.split "/" t) as [|h r]; [done|]. split.
      * rewrite <- IHj. by destruct r.
      * inversion IHf as [|? ? Hh Hr]; subst. constructor; [|done].
        simpl. by rewrite Hc, Hh.
Qed.

(** The first segment is no longer than the text. *)
Lemma split_first_length s :
  ∃ h r, JS.split "/" s = h :: r ∧ (String.length h ≤ String.length s)%nat.
Proof.
  induction s as [|c t (h & r & Heq & Hlen)]; simpl.
  - by exists "", [].
  - destruct (Ascii.eqb c "/").
    + exists "", (JS.split "/" t). split; [done|]. simpl. lia.
    + rewrite Heq. exists (String c h), r. split; [done|]. simpl. lia.
Qed.

End SplitFacts.

Section DecodeFacts.

Import Middleware.

Lemma well_formed_utf16_app a b :
  well_formed_utf16 a = true → well_formed_utf16 b = true →
  well_formed_utf16 (a ++ b) = true.
Proof.
  intros Ha Hb. remember (length a) as n eqn:Hn.
  assert (Hle : (length a ≤ n)%nat) by lia. clear Hn.
  revert a Ha Hle. induction n as [|n IH]; intros a Ha Hle.
  - destruct a; [done|simpl in Hle; lia].
  - destruct a as [|u r]; [done|]. simpl in *.
    destruct (is_high_surrogate u).
    + destruct r as [|lo r']; [done|]. simpl.
      apply andb_true_iff in Ha as [Hlo Hr']. rewrite Hlo. simpl.
      apply IH; [done|]. simpl in Hle. lia.
    + apply andb_true_iff in Ha as [Hu Hr]. rewrite Hu. simpl.
      apply IH; [done|lia].
Qed.

Lemma well_formed_utf16_small u :
  (u < 55296)%N → well_formed_utf16 [u] = true.
Proof.
  intros Hu. unfold well_formed_utf16, is_high_surrogate, is_low_surrogate.
  replace (55296 <=? u)%N with false by (symmetry; apply N.leb_gt; lia).
  replace (56320 <=? u)%N with false by (symmetry; apply N.leb_gt; lia).
  simpl. rewrite andb_true_r. apply N.ltb_lt. lia.
Qed.

Lemma well_formed_utf16_encode V :
  is_scalar_value V = true → well_formed_utf16 (JS.UTF16EncodeCodePoint V) = true.
Proof.
  unfold is_scalar_value, JS.UTF16EncodeCodePoint. intros HV.
  apply orb_true_iff in HV as [HV|HV].
  - apply N.ltb_lt in HV.
    replace (V <=? 65535)%N with true by (symmetry; apply N.leb_le; lia).
    by apply well_formed_utf16_small.
  - apply andb_true_iff in HV as [Hlo Hhi].
    apply N.ltb_lt in Hlo. apply N.leb_le in Hhi.
    destruct (V <=? 65535)%N eqn:Hbmp.
    + apply N.leb_le in Hbmp.
      unfold well_formed_utf16, is_high_surrogate, is_low_surrogate.
      replace (V <=? 56319)%N with false by (symmetry; apply N.leb_gt; lia).
      replace (V <=? 57343)%N with false by (symmetry; apply N.leb_gt; lia).
      rewrite !andb_false_r. simpl. rewrite andb_true_r. apply N.ltb_lt. lia.
    + apply N.leb_gt in Hbmp.
      assert (Hq : ((V - 65536) / 1024 < 1024)%N).
      { apply N.Div0.div_lt_upper_bound. lia. }
      assert (Hr : ((V - 65536) mod 1024 < 1024)%N) by (apply N.mod_lt; lia).
      unfold well_formed_utf16, is_high_surrogate, is_low_surrogate.
      generalize dependent ((V - 65536) / 1024)%N. intros q Hq.
      generalize dependent ((V - 65536) mod 1024)%N. intros m Hm.
      replace (55296 <=? q + 55296)%N with true by (symmetry; apply N.leb_le; lia).
      replace (q + 55296 <=? 56319)%N with true by (symmetry; apply N.leb_le; lia).
      replace (56320 <=? m + 56320)%N with true by (symmetry; apply N.leb_le; lia).
      replace (m + 56320 <=? 57343)%N with true by (symmetry; apply N.leb_le; lia).
      reflexivity.
Qed.

Lemma utf8_code_point_scalar n B conts V :
  JS.utf8_code_point n B conts = Return V → is_scalar_value V = true.
Proof.
  unfold JS.utf8_code_point, is_scalar_value.
  destruct (forallb _ conts); [|discriminate].
  set (W := fold_left _ conts _).
  destruct (W <? _)%N; [discriminate|].
  destruct ((55296 <=? W)%N && (W <=? 57343)%N) eqn:Hsur; [discriminate|].
  destruct (1114111 <? W)%N eqn:Hmax; [discriminate|].
  intros [= <-]. apply N.ltb_ge in Hmax.
  apply andb_false_iff in Hsur as [Hs|Hs].
  - apply N.leb_gt in Hs. apply orb_true_iff. left. by apply N.ltb_lt.
  - apply N.leb_gt in Hs. apply orb_true_iff. right.
    apply andb_true_iff. split; [by apply N.ltb_lt | by apply N.leb_le].
Qed.

Lemma continuation_bounds j r conts :
  JS.continuation j r = Return conts → (3 * j ≤ String.length r)%nat.
Proof.
  revert r conts. induction j as [|j IH]; intros r conts; [simpl; lia|].
  destruct r as [|[[] [] [] [] [] [] [] []] [|a [|b r']]]; try discriminate.
  simpl JS.continuation.
  destruct (JS.hex_byte a b); [|discriminate]. simpl.
  destruct (JS.continuation j r') as [rest|] eqn:Hrest; [|discriminate].
  intros _. specialize (IH _ _ Hrest). simpl. lia.
Qed.

Lemma UTF16EncodeCodePoint_length V :
  (length (JS.UTF16EncodeCodePoint V) ≤ 2)%nat.
Proof. unfold JS.UTF16EncodeCodePoint. destruct (V <=? 65535)%N; simpl; lia. Qed.

(** What one escape sequence yields: well-formed code units, at most two,
    for at least two and at most all of the code units after the [%]. *)
Lemma decode_escape_bounds t esc :
  JS.decode_escape t = Return esc →
  well_formed_utf16 (fst esc) = true
  ∧ (length (fst esc) ≤ 2)%nat
  ∧ (2 ≤ snd esc ≤ String.length t)%nat.
Proof.
  unfold JS.decode_escape.
  destruct t as [|h1 [|h2 r]]; try discriminate.
  destruct (JS.hex_byte h1 h2) as [B|]; [|discriminate]. simpl.
  assert (Hmulti : ∀ n, (2 ≤ n)%nat →
    (let* conts := JS.continuation (n - 1) r in
     let* V := JS.utf8_code_point n B conts in
     Return (JS.UTF16EncodeCodePoint V, 2 + 3 * (n - 1))%nat) = Return esc →
    well_formed_utf16 (fst esc) = true
    ∧ (length (fst esc) ≤ 2)%nat
    ∧ (2 ≤ snd esc ≤ S (S (String.length r)))%nat).
  { intros n Hn.
    destruct (JS.continuation (n - 1) r) as [conts|] eqn:Hc; [|discriminate].
    apply continuation_bounds in Hc. simpl.
    destruct (JS.utf8_code_point n B conts) as [V|] eqn:HV; [|discriminate].
    apply utf8_code_point_scalar in HV. simpl. intros [= <-]. simpl.
    split; [by apply well_formed_utf16_encode|].
    split; [apply UTF16EncodeCodePoint_length|lia]. }
  unfold JS.leading_ones.
  destruct (B <? 128)%N eqn:H0.
  { intros [= <-]. simpl. apply N.ltb_lt in H0.
    split; [apply well_formed_utf16_small; lia|lia]. }
  destruct (B <? 192)%N; [discriminate|].
  destruct (B <? 224)%N; [apply (Hmulti 2%nat); lia|].
  destruct (B <? 240)%N; [apply (Hmulti 3%nat); lia|].
  destruct (B <? 248)%N; [apply (Hmulti 4%nat); lia|discriminate].
Qed.

(** The decoder gives well-formed UTF-16, no longer than what it read. *)
Lemma Decode_bounds s : ∀ skip l,
  JS.Decode skip s = Return l →
  well_formed_utf16 l = true ∧ (length l ≤ String.length s - skip)%nat.
Proof.
  induction s as [|C t IH]; intros skip l; simpl.
  - by intros [= <-].
  - destruct skip as [|skip].
    + destruct (Ascii.eqb C "%").
      * destruct (JS.decode_escape t) as [esc|] eqn:Hesc; [|discriminate]. simpl.
        destruct (JS.Decode (snd esc) t) as [R|] eqn:HR; [|discriminate]. simpl.
        intros [= <-].
        apply decode_escape_bounds in Hesc as (Hwf & Hlen & Hcov).
        apply IH in HR as [HwfR HlenR]. split.
        -- by apply well_formed_utf16_app.
        -- rewrite length_app. lia.
      * destruct (JS.Decode 0 t) as [R|] eqn:HR; [|discriminate]. simpl.
        intros [= <-]. apply IH in HR as [HwfR HlenR]. split.
        -- apply (well_formed_utf16_app [_] R); [|done].
           apply well_formed_utf16_small. unfold JS.code_unit.
           pose proof (N_ascii_bounded C). lia.
        -- simpl. lia.
    + intros Hl. apply IH in Hl as [Hwf Hlen]. split; [done|lia].
Qed.

(** X2: whatever the path, the key [parse] returns is well-formed UTF-16:
    16-bit code units with every surrogate in a high-low pair. *)
Theorem parse_key_well_formed (HOME_HOSTNAMES : gset string) (req : NextRequest)
    (r : Parsed) :
  parse HOME_HOSTNAMES req = Return r → well_formed_utf16 (key r) = true.
Proof.
  unfold parse. destruct (JS.decodeURIComponent _) as [k|] eqn:Hk; [|discriminate].
  intros [= <-]. simpl. by apply Decode_bounds in Hk as [Hwf _].
Qed.

(** X3: decoding never lengthens: for a path that starts with ["/"], the key
    has at most as many code units as the path has after that ["/"]. *)
Theorem parse_key_length (HOME_HOSTNAMES : gset string) (req : NextRequest)
    (rest : string) (r : Parsed) :
  pathname (nextUrl req) = String "/" rest →
  parse HOME_HOSTNAMES req = Return r →
  (length (key r) ≤ String.length rest)%nat.
Proof.
  intros Hpath. unfold parse. rewrite Hpath.
  destruct (split_first_length rest) as (h & tl & Hsplit & Hlen).
  simpl JS.split. rewrite Hsplit. simpl.
  destruct (JS.decodeURIComponent h) as [k|] eqn:Hk; [|discriminate].
  intros [= <-]. simpl. apply Decode_bounds in Hk as [_ Hk]. lia.
Qed.

End DecodeFacts.

Section RoundTrip.

Import Middleware.

Lemma all_below_256 (P : N → bool) :
  forallb (fun k => P (N.of_nat k)) (seq 0 256) = true →
  ∀ B, (B < 256)%N → P B = true.
Proof.
  intros HP B HB. rewrite forallb_forall in HP.
  rewrite <- (N2Nat.id B). apply HP. apply in_seq. lia.
Qed.

Lemma hex_byte_hex_char B :
  (B < 256)%N → JS.hex_byte (hex_char (B / 16)) (hex_char (B mod 16)) = Return B.
Proof.
  intros HB.
  pose proof (all_below_256
    (fun B => match JS.hex_byte (hex_char (B / 16)) (hex_char (B mod 16)) with
              | Return x => (x =? B)%N
              | Throw _ => false
              end)) as H.
  specialize (H ltac:(vm_compute; reflexivity) B HB). cbv beta in H.
  destruct (JS.hex_byte _ _); [|done]. by apply N.eqb_eq in H as ->.
Qed.

(** The escape of an octet holds neither ["/"] nor a second ["%"]. *)
Lemma hex_char_plain B :
  (B < 256)%N →
  Ascii.eqb (hex_char (B / 16)) "/" = false
  ∧ Ascii.eqb (hex_char (B mod 16)) "/" = false.
Proof.
  intros HB.
  pose proof (all_below_256
    (fun B => negb (Ascii.eqb (hex_char (B / 16)) "/")
              && negb (Ascii.eqb (hex_char (B mod 16)) "/"))) as H.
  specialize (H ltac:(vm_compute; reflexivity) B HB). cbv beta in H.
  apply andb_true_iff in H as [H1 H2].
  by apply negb_true_iff in H1, H2.
Qed.

Lemma percent_octets_length Bs :
  String.length (percent_octets Bs) = (3 * length Bs)%nat.
Proof.
  induction Bs as [|B Bs IH]; [done|].
  change (String.length (percent_octets (B :: Bs)))
    with (S (S (S (String.length (percent_octets Bs))))).
  rewrite IH. simpl length. lia.
Qed.

Lemma Decode_skip_prefix pre t :
  JS.Decode (String.length pre) (pre +:+ t) = JS.Decode 0 t.
Proof. induction pre as [|c pre IH]; simpl; [done|exact IH]. Qed.

Lemma continuation_percent_octets conts t :
  Forall (fun B => (B < 256)%N) conts →
  JS.continuation (length conts) (percent_octets conts +:+ t) = Return conts.
Proof.
  induction 1 as [|B conts HB _ IH]; [done|].
  change (JS.continuation (length (B :: conts)) (percent_octets (B :: conts) +:+ t))
    with (let* B' := JS.hex_byte (hex_char (B / 16)) (hex_char (B mod 16)) in
          let* rest := JS.continuation (length conts) (percent_octets conts +:+ t) in
          Return (B' :: rest)).
  by rewrite (hex_byte_hex_char B HB), IH.
Qed.

(** Decoding the escapes of one octet below 128. *)
Lemma Decode_single B t :
  (B < 128)%N →
  JS.Decode 0 (percent_octets [B] +:+ t)
  = let* R := JS.Decode 0 t in Return (B :: R).
Proof.
  intros HB.
  change (JS.Decode 0 (percent_octets [B] +:+ t))
    with (let* esc := JS.decode_escape
                        (String (hex_char (B / 16)) (String (hex_char (B mod 16)) t)) in
          let* R := JS.Decode (snd esc)
                      (String (hex_char (B / 16)) (String (hex_char (B mod 16)) t)) in
          Return (fst esc ++ R)%list).
  unfold JS.decode_escape. rewrite hex_byte_hex_char by lia. simpl cbind.
  unfold JS.leading_ones.
  replace (B <? 128)%N with true by (symmetry; apply N.ltb_lt; lia).
  reflexivity.
Qed.

(** Decoding the escapes of a multi-octet sequence. *)
Lemma Decode_multi n B conts V t :
  (n = 2 ∨ n = 3 ∨ n = 4)%nat →
  JS.leading_ones B = n → length conts = (n - 1)%nat →
  (B < 256)%N → Forall (fun B => (B < 256)%N) conts →
  JS.utf8_code_point n B conts = Return V →
  JS.Decode 0 (percent_octets (B :: conts) +:+ t)
  = let* R := JS.Decode 0 t in Return (JS.UTF16EncodeCodePoint V ++ R)%list.
Proof.
  intros Hn Hlead Hlen HB Hconts HV.
  set (tl := percent_octets conts +:+ t).
  change (JS.Decode 0 (percent_octets (B :: conts) +:+ t))
    with (let* esc := JS.decode_escape
                        (String (hex_char (B / 16)) (String (hex_char (B mod 16)) tl)) in
          let* R := JS.Decode (snd esc)
                      (String (hex_char (B / 16)) (String (hex_char (B mod 16)) tl)) in
          Return (fst esc ++ R)%list).
  assert (Hesc : JS.decode_escape
                   (String (hex_char (B / 16)) (String (hex_char (B mod 16)) tl))
                 = Return (JS.UTF16EncodeCodePoint V, 2 + 3 * (n - 1))%nat).
  { unfold JS.decode_escape. rewrite hex_byte_hex_char by done. simpl cbind.
    rewrite Hlead.
    assert (Hc : JS.continuation (n - 1) tl = Return conts).
    { rewrite <- Hlen. by apply continuation_percent_octets. }
    destruct Hn as [->|[->| ->]]; cbv iota; rewrite Hc; simpl cbind;
      rewrite HV; reflexivity. }
  rewrite Hesc. cbn [cbind fst snd].
  change (JS.Decode (2 + 3 * (n - 1))
            (String (hex_char (B / 16)) (String (hex_char (B mod 16)) tl)))
    with (JS.Decode (3 * (n - 1)) tl).
  replace (3 * (n - 1))%nat with (String.length (percent_octets conts))
    by (rewrite percent_octets_length; lia).
  unfold tl. by rewrite Decode_skip_prefix.
Qed.

(** The UTF-8 octets of a scalar value from 128 on are a lead octet and one
    to three continuation octets that the decoder reads back as the value. *)
Lemma utf8_octets_decode V :
  is_scalar_value V = true → (128 ≤ V)%N →
  ∃ n B conts,
    utf8_octets V = B :: conts
    ∧ (n = 2 ∨ n = 3 ∨ n = 4)%nat
    ∧ JS.leading_ones B = n ∧ length conts = (n - 1)%nat
    ∧ (B < 256)%N ∧ Forall (fun B => (B < 256)%N) conts
    ∧ JS.utf8_code_point n B conts = Return V.
Proof.
  intros Hsc Hlo. unfold is_scalar_value in Hsc.
  assert (Hscalar : ((V < 55296) ∨ (57343 < V ∧ V ≤ 1114111))%N).
  { apply orb_true_iff in Hsc as [H|H].
    - left. by apply N.ltb_lt.
    - right. apply andb_true_iff in H as [H1 H2].
      split; [by apply N.ltb_lt | by apply N.leb_le]. }
  clear Hsc.
  pose proof (N.div_mod' V 64) as E1. pose proof (N.mod_lt V 64 ltac:(lia)) as M1.
  pose proof (N.div_mod' (V / 64) 64) as E2.
  pose proof (N.mod_lt (V / 64) 64 ltac:(lia)) as M2.
  pose proof (N.div_mod' (V / 64 / 64) 64) as E3.
  pose proof (N.mod_lt (V / 64 / 64) 64 ltac:(lia)) as M3.
  assert (D2 : (V / 4096 = V / 64 / 64)%N) by (by rewrite N.Div0.div_div).
  assert (D3 : (V / 262144 = V / 64 / 64 / 64)%N) by (by rewrite !N.Div0.div_div).
  unfold utf8_octets. rewrite D2, D3.
  set (q1 := (V / 64)%N) in *. set (m1 := (V mod 64)%N) in *.
  set (q2 := (q1 / 64)%N) in *. set (m2 := (q1 mod 64)%N) in *.
  set (q3 := (q2 / 64)%N) in *. set (m3 := (q2 mod 64)%N) in *.
  clearbody q3 m3 m2 m1 q2 q1. clear D2 D3.
  replace (V <? 128)%N with false by (symmetry; apply N.ltb_ge; lia).
  destruct (V <? 2048)%N eqn:H2; [|destruct (V <? 65536)%N eqn:H3].
  - apply N.ltb_lt in H2.
    exists 2%nat, (192 + q1)%N, [128 + m1]%N.
    split; [done|]. split; [auto|].
    unfold JS.leading_ones, JS.utf8_code_point, JS.is_continuation_octet.
    cbn [forallb fold_left length].
    replace (192 + q1 <? 128)%N with false by (symmetry; apply N.ltb_ge; lia).
    replace (192 + q1 <? 192)%N with false by (symmetry; apply N.ltb_ge; lia).
    replace (192 + q1 <? 224)%N with true by (symmetry; apply N.ltb_lt; lia).
    replace (128 <=? 128 + m1)%N with true by (symmetry; apply N.leb_le; lia).
    replace (128 + m1 <? 192)%N with true by (symmetry; apply N.ltb_lt; lia).
    replace (64 * (192 + q1 - 192) + (128 + m1 - 128))%N with V by lia.
    replace (V <? 128)%N with false by (symmetry; apply N.ltb_ge; lia).
    replace (55296 <=? V)%N with false by (symmetry; apply N.leb_gt; lia).
    replace (1114111 <? V)%N with false by (symmetry; apply N.ltb_ge; lia).
    repeat split; try done; try lia. repeat constructor; lia.
  - apply N.ltb_ge in H2. apply N.ltb_lt in H3.
    exists 3%nat, (224 + q2)%N, [128 + m2; 128 + m1]%N.
    split; [done|]. split; [auto|].
    unfold JS.leading_ones, JS.utf8_code_point, JS.is_continuation_octet.
    cbn [forallb fold_left length].
    replace (224 + q2 <? 128)%N with false by (symmetry; apply N.ltb_ge; lia).
    replace (224 + q2 <? 192)%N with false by (symmetry; apply N.ltb_ge; lia).
    replace (224 + q2 <? 224)%N with false by (symmetry; apply N.ltb_ge; lia).
    replace (224 + q2 <? 240)%N with true by (symmetry; apply N.ltb_lt; lia).
    replace (128 <=? 128 + m2)%N with true by (symmetry; apply N.leb_le; lia).
    replace (128 + m2 <? 192)%N with true by (symmetry; apply N.ltb_lt; lia).
    replace (128 <=? 128 + m1)%N with true by (symmetry; apply N.leb_le; lia).
    replace (128 + m1 <? 192)%N with true by (symmetry; apply N.ltb_lt; lia).
    replace (64 * (64 * (224 + q2 - 224) + (128 + m2 - 128)) + (128 + m1 - 128))%N
      with V by lia.
    replace (V <? 2048)%N with false by (symmetry; apply N.ltb_ge; lia).
    destruct Hscalar as [Hs|[Hs1 Hs2]].
    + replace (55296 <=? V)%N with false by (symmetry; apply N.leb_gt; lia).
      replace (1114111 <? V)%N with false by (symmetry; apply N.ltb_ge; lia).
      repeat split; try done; try lia. repeat constructor; lia.
    + replace (V <=? 57343)%N with false by (symmetry; apply N.leb_gt; lia).
      rewrite andb_false_r.
      replace (1114111 <? V)%N with false by (symmetry; apply N.ltb_ge; lia).
      repeat split; try done; try lia. repeat constructor; lia.
  - apply N.ltb_ge in H2, H3.
    exists 4%nat, (240 + q3)%N, [128 + m3; 128 + m2; 128 + m1]%N.
    split; [done|]. split; [auto|].
    unfold JS.leading_ones, JS.utf8_code_point, JS.is_continuation_octet.
    cbn [forallb fold_left length].
    replace (240 + q3 <? 128)%N with false by (symmetry; apply N.ltb_ge; lia).
    replace (240 + q3 <? 192)%N with false by (symmetry; apply N.ltb_ge; lia).
    replace (240 + q3 <? 224)%N with false by (symmetry; apply N.ltb_ge; lia).
    replace (240 + q3 <? 240)%N with false by (symmetry; apply N.ltb_ge; lia).
    replace (240 + q3 <? 248)%N with true by (symmetry; apply N.ltb_lt; lia).
    replace (128 <=? 128 + m3)%N with true by (symmetry; apply N.leb_le; lia).
    replace (128 + m3 <? 192)%N with true by (symmetry; apply N.ltb_lt; lia).
    replace (128 <=? 128 + m2)%N with true by (symmetry; apply N.leb_le; lia).
    replace (128 + m2 <? 192)%N with true by (symmetry; apply N.ltb_lt; lia).
    replace (128 <=? 128 + m1)%N with true by (symmetry; apply N.leb_le; lia).
    replace (128 + m1 <? 192)%N with true by (symmetry; apply N.ltb_lt; lia).
    replace (64 * (64 * (64 * (240 + q3 - 240) + (128 + m3 - 128)) + (128 + m2 - 128))
             + (128 + m1 - 128))%N with V by lia.
    replace (V <? 65536)%N with false by (symmetry; apply N.ltb_ge; lia).
    replace (V <=? 57343)%N with false by (symmetry; apply N.leb_gt; lia).
    rewrite andb_false_r.
    replace (1114111 <? V)%N with false by (symmetry; apply N.ltb_ge; lia).
    repeat split; try done; try lia. repeat constructor; lia.
Qed.

Lemma is_unreserved_small V : is_unreserved V = true → (V < 128)%N.
Proof.
  unfold is_unreserved. rewrite !orb_true_iff, !andb_true_iff, !N.leb_le.
  intros [[[H|H]|H]|H]; try lia.
  apply bool_decide_eq_true in H.
  repeat (apply elem_of_cons in H as [->|H]; [lia|]).
  by apply elem_of_nil in H.
Qed.

(** An unreserved character is neither ["%"] nor ["/"] and is its own code
    unit. *)
Lemma is_unreserved_char V :
  is_unreserved V = true →
  Ascii.eqb (ascii_of_N V) "%" = false
  ∧ Ascii.eqb (ascii_of_N V) "/" = false
  ∧ JS.code_unit (ascii_of_N V) = V.
Proof.
  intros HV. pose proof (is_unreserved_small V HV) as Hsmall.
  pose proof (all_below_256
    (fun V => implb (is_unreserved V)
                (negb (Ascii.eqb (ascii_of_N V) "%")
                 && negb (Ascii.eqb (ascii_of_N V) "/")
                 && (JS.code_unit (ascii_of_N V) =? V)%N))) as H.
  specialize (H ltac:(vm_compute; reflexivity) V ltac:(lia)). cbv beta in H.
  rewrite HV in H. simpl in H.
  apply andb_true_iff in H as [H H3]. apply andb_true_iff in H as [H1 H2].
  apply negb_true_iff in H1, H2. by apply N.eqb_eq in H3.
Qed.

Lemma slash_free_app a b :
  slash_free (a +:+ b) = slash_free a && slash_free b.
Proof. induction a as [|c a IH]; simpl; [done|]. by rewrite IH, andb_assoc. Qed.

Lemma slash_free_percent_octets Bs :
  Forall (fun B => (B < 256)%N) Bs → slash_free (percent_octets Bs) = true.
Proof.
  induction 1 as [|B Bs HB _ IH]; [done|].
  destruct (hex_char_plain B HB) as [H1 H2].
  change (slash_free (percent_octets (B :: Bs)))
    with (negb (Ascii.eqb "%" "/")
          && (negb (Ascii.eqb (hex_char (B / 16)) "/")
              && (negb (Ascii.eqb (hex_char (B mod 16)) "/")
                  && slash_free (percent_octets Bs)))).
  by rewrite H1, H2, IH.
Qed.

Lemma utf8_octets_small V :
  is_scalar_value V = true → Forall (fun B => (B < 256)%N) (utf8_octets V).
Proof.
  intros HV. destruct (V <? 128)%N eqn:Hlo.
  - unfold utf8_octets. rewrite Hlo. apply N.ltb_lt in Hlo.
    repeat constructor. lia.
  - apply N.ltb_ge in Hlo.
    destruct (utf8_octets_decode V HV Hlo) as (n & B & conts & -> & _ & _ & _ & HB & Hc & _).
    by constructor.
Qed.

Lemma encodeURIComponent_slash_free Vs :
  Forall (fun V => is_scalar_value V = true) Vs →
  slash_free (encodeURIComponent Vs) = true.
Proof.
  induction 1 as [|V Vs HV _ IH]; [done|].
  simpl encodeURIComponent. rewrite slash_free_app, IH, andb_true_r.
  destruct (is_unreserved V) eqn:Hu.
  - destruct (is_unreserved_char V Hu) as (_ & Hs & _). simpl. by rewrite Hs.
  - by apply slash_free_percent_octets, utf8_octets_small.
Qed.

(** Decoding undoes encoding. *)
Lemma decodeURIComponent_encodeURIComponent Vs :
  Forall (fun V => is_scalar_value V = true) Vs →
  JS.decodeURIComponent (encodeURIComponent Vs)
  = Return (flat_map JS.UTF16EncodeCodePoint Vs).
Proof.
  unfold JS.decodeURIComponent.
  induction 1 as [|V Vs HV _ IH]; [done|].
  simpl encodeURIComponent. simpl flat_map.
  destruct (is_unreserved V) eqn:Hu.
  - destruct (is_unreserved_char V Hu) as (Hp & _ & Hcode).
    pose proof (is_unreserved_small V Hu) as Hsmall.
    change (JS.Decode 0 (String (ascii_of_N V) "" +:+ encodeURIComponent Vs))
      with (if Ascii.eqb (ascii_of_N V) "%" then
              let* esc := JS.decode_escape (encodeURIComponent Vs) in
              let* R := JS.Decode (snd esc) (encodeURIComponent Vs) in
              Return (fst esc ++ R)%list
            else
              let* R := JS.Decode 0 (encodeURIComponent Vs) in
              Return (JS.code_unit (ascii_of_N V) :: R)).
    rewrite Hp, IH, Hcode. simpl.
    unfold JS.UTF16EncodeCodePoint.
    by replace (V <=? 65535)%N with true by (symmetry; apply N.leb_le; lia).
  - destruct (V <? 128)%N eqn:Hlo.
    + unfold utf8_octets. rewrite Hlo. apply N.ltb_lt in Hlo.
      rewrite Decode_single, IH by done. simpl.
      unfold JS.UTF16EncodeCodePoint.
      by replace (V <=? 65535)%N with true by (symmetry; apply N.leb_le; lia).
    + apply N.ltb_ge in Hlo.
      destruct (utf8_octets_decode V HV Hlo)
        as (n & B & conts & -> & Hn & Hlead & Hlen & HB & Hc & Hcp).
      by rewrite (Decode_multi n B conts V), IH.
Qed.

(** X4: a first segment without ["%"] is the key as it stands, and [parse]
    does not throw on it. *)
Theorem parse_plain_key (HOME_HOSTNAMES : gset string) (req : NextRequest)
    (seg tail : string) :
  pathname (nextUrl req) = String "/" (seg +:+ tail) →
  slash_free seg = true → percent_free seg = true →
  tail = "" ∨ (∃ t, tail = String "/" t) →
  ∃ r, parse HOME_HOSTNAMES req = Return r
       ∧ key r = JS.code_units seg
       ∧ path r = pathname (nextUrl req).
Proof.
  intros Hpath Hfree Hplain Htail. unfold parse. rewrite Hpath.
  destruct (split_head seg tail Hfree Htail) as [r Hr].
  simpl JS.split. rewrite Hr. simpl.
  rewrite (decodeURIComponent_plain seg Hplain). simpl. eauto.
Qed.

(** X5: round trip.  When the first segment is [encodeURIComponent] of a
    text, the key [parse] returns is that text, in UTF-16; [parse] does not
    throw. *)
Theorem parse_encoded_key (HOME_HOSTNAMES : gset string) (req : NextRequest)
    (Vs : list N) (tail : string) :
  pathname (nextUrl req) = String "/" (encodeURIComponent Vs +:+ tail) →
  Forall (fun V => is_scalar_value V = true) Vs →
  tail = "" ∨ (∃ t, tail = String "/" t) →
  ∃ r, parse HOME_HOSTNAMES req = Return r
       ∧ key r = flat_map JS.UTF16EncodeCodePoint Vs.
Proof.
  intros Hpath HVs Htail. unfold parse. rewrite Hpath.
  destruct (split_head (encodeURIComponent Vs) tail) as [r Hr];
    [by apply encodeURIComponent_slash_free | done |].
  simpl JS.split. rewrite Hr. simpl.
  rewrite (decodeURIComponent_encodeURIComponent Vs HVs). simpl. eauto.
Qed.

End RoundTrip.

Section DetectBotFacts.

Import Middleware.

Lemma byte_lowercase_idempotent c :
  JS.byte_lowercase (JS.byte_lowercase c) = JS.byte_lowercase c.
Proof.
  apply Ascii.eqb_eq.
  apply (all_ascii (fun c =>
    Ascii.eqb (JS.byte_lowercase (JS.byte_lowercase c)) (JS.byte_lowercase c))).
  vm_compute; reflexivity.
Qed.

Lemma match_literal_lowercase lit s :
  letters lit = true →
  JS.match_literal lit (JS.lowercase s) = JS.match_literal lit s.
Proof.
  revert s. induction lit as [|p lit IH]; intros s Hl; [done|].
  simpl in Hl. apply andb_true_iff in Hl as [Hp Hl].
  destruct s as [|c s]; [done|]. simpl.
  by rewrite !(Canonicalize_letter _ _ Hp), byte_lowercase_idempotent, (IH s Hl).
Qed.

Lemma RegExp_test_lowercase alts s :
  forallb letters alts = true →
  JS.RegExp_test alts (JS.lowercase s) = JS.RegExp_test alts s.
Proof.
  intros Hl.
  assert (Hhere : ∀ s, existsb (fun lit => JS.match_literal lit (JS.lowercase s)) alts
                       = existsb (fun lit => JS.match_literal lit s) alts).
  { intros s'. induction alts as [|lit alts IH]; [done|].
    simpl in Hl |- *. apply andb_true_iff in Hl as [Hlit Hl].
    by rewrite (match_literal_lowercase lit s' Hlit), (IH Hl). }
  induction s as [|c s IH]; [done|].
  change (JS.RegExp_test alts (JS.lowercase (String c s)))
    with (existsb (fun lit => JS.match_literal lit (JS.lowercase (String c s))) alts
          || JS.RegExp_test alts (JS.lowercase s)).
  by rewrite Hhere, IH.
Qed.

(** X6: the verdict does not depend on the case of the letters of the
    [User-Agent]: two requests with the same query whose user agents differ
    only in case are classified alike. *)
Theorem detectBot_case_insensitive (req1 req2 : NextRequest) (ua1 ua2 : string) :
  searchParams (nextUrl req1) = searchParams (nextUrl req2) →
  JS.Headers_get "User-Agent" (headers req1) = Some ua1 →
  JS.Headers_get "User-Agent" (headers req2) = Some ua2 →
  JS.lowercase ua1 = JS.lowercase ua2 →
  detectBot req1 = detectBot req2.
Proof.
  intros Hq H1 H2 Hlow. unfold detectBot. rewrite Hq, H1, H2.
  destruct (truthy (JS.URLSearchParams_get "bot" _)); [done|].
  rewrite <- (RegExp_test_lowercase bot_pattern ua1 bot_pattern_letters).
  rewrite <- (RegExp_test_lowercase bot_pattern ua2 bot_pattern_letters).
  rewrite Hlow.
  destruct ua1, ua2; try done; discriminate.
Qed.

Lemma contains_duckduckbot_bot s :
  contains_ci "duckduckbot" s → contains_ci "bot" s.
Proof.
  intros (pre & mid & post & -> & Hlow).
  destruct mid as [|c1 [|c2 [|c3 [|c4 [|c5 [|c6 [|c7 [|c8 [|c9 [|c10 [|c11 [|c12 mid]]]]]]]]]]]];
    try discriminate.
  simpl in Hlow. injection Hlow as _ _ _ _ _ _ _ _ H9 H10 H11.
  exists (pre +:+ String c1 (String c2 (String c3 (String c4 (String c5
            (String c6 (String c7 (String c8 "")))))))),
         (String c9 (String c10 (String c11 ""))), post.
  split.
  - clear. induction pre as [|c pre IH]; [reflexivity|].
    rewrite !append_String. by f_equal.
  - simpl. by rewrite H9, H10, H11.
Qed.

(** X7: the [duckduckbot] alternative of the regular expression is dead:
    whatever it matches, [bot] matches too, so the test gives the same
    answer without it. *)
Theorem duckduckbot_redundant (ua : string) :
  JS.RegExp_test bot_pattern ua
  = JS.RegExp_test bot_pattern_without_duckduckbot ua.
Proof.
  apply Bool.eq_true_iff_eq.
  rewrite (RegExp_test_spec bot_pattern ua bot_pattern_letters).
  rewrite (RegExp_test_spec bot_pattern_without_duckduckbot ua eq_refl).
  split.
  - intros (lit & Hin & Hc).
    destruct (decide (lit = "duckduckbot")) as [->|Hne].
    + exists "bot". split; [by constructor|]. by apply contains_duckduckbot_bot.
    + exists lit. split; [|done].
      apply list_elem_of_In in Hin. apply list_elem_of_In.
      simpl in Hin |- *. intuition congruence.
  - intros (lit & Hin & Hc). exists lit. split; [|done].
    apply list_elem_of_In in Hin. apply list_elem_of_In.
    simpl in Hin |- *. tauto.
Qed.

End DetectBotFacts.

(** * Further properties of the QR download panel *)

Section PanelFacts.

Import QRModal.

Variable getApexDomain : string → completion string.
Variable linkConstructor : string → option string → string.
Variable URL_href : string → string → completion string.
Variable props : SimpleLinkProps.
Variable window : option Location.

(** The project at the first render and the project at the render or click
    at hand; the values the memos [qrDestUrl] and [qrLogoUrl] had at the
    first render. *)
Variable mounted_project project : Project.
Variable destUrl logoUrl : string.

Local Abbreviation initial := (initial_state destUrl logoUrl).
Local Abbreviation reachable := (reachable destUrl logoUrl).
Local Abbreviation render := (LinkQRModalHelper getApexDomain props).
Local Abbreviation first_render :=
  (first_render getApexDomain linkConstructor URL_href props mounted_project window).
Local Abbreviation qrLogoUrl := (qrLogoUrl URL_href mounted_project window).
Local Abbreviation qrDestUrl := (qrDestUrl linkConstructor props mounted_project).

Lemma default_last_cons {A} (x d : A) (l : list A) :
  default d (last (x :: l)) = default x (last l).
Proof. rewrite last_cons. by destruct (last l). Qed.

Lemma run_from (evs : list Event) : ∀ st,
  run evs st
  = {| showLogo := default (showLogo st) (last (omap checked_of evs));
       qrData := onChange (default (fgColor (qrData st)) (last (omap color_of evs)))
                   (qrData st) |}.
Proof.
  induction evs as [|ev evs IH]; intros st.
  - by destruct st as [? []].
  - change (run (ev :: evs) st) with (run evs (handle ev st)).
    rewrite IH. destruct ev; simpl; by rewrite ?default_last_cons.
Qed.

(** X8: after any sequence of user events the state is the initial one but
    for two things: the foreground colour is the one handed in last
    ([#000000] if none was), and the logo flag is the switch position handed
    in last (on if none was).  Destination, background, size, level and
    embedded logo never change. *)
Theorem run_last_wins (evs : list Event) :
  run evs initial
  = {| showLogo := default true (last (omap checked_of evs));
       qrData := onChange (default "#000000" (last (omap color_of evs)))
                   (qrData initial) |}.
Proof. by rewrite run_from. Qed.

(** The props of the preview in a state just created. *)
Lemma QRCodeSVG_props_initial (d u : string) :
  QRCodeSVG_props (initial_state d u)
  = Return {| preview_value := d;
              preview_size := (1024 / 8)%Q;
              preview_bgColor := "#ffffff";
              preview_fgColor := "#000000";
              preview_level := "Q";
              includeMargin := false;
              preview_imageSettings :=
                Some {| src := u; height := (256 / 8)%Q; width := (256 / 8)%Q;
                        excavate := true |} |}.
Proof. reflexivity. Qed.

(** X9: when [getApexDomain] returns, the first render throws exactly when
    the memo of the logo URL does ([new URL] on a bad origin, asked only when
    the project has no logo then); otherwise it creates the initial state
    from the two memos and shows the favicon of the apex domain and the
    preview.  In every state reached from there a render returns too. *)
Theorem first_render_returns (apexDomain : string) :
  getApexDomain (url props) = Return apexDomain →
  first_render
  = (let* u := qrLogoUrl in
     Return (initial_state qrDestUrl u,
             {| header := BlurImage (favicon_url apexDomain) apexDomain 40 40;
                preview :=
                  {| preview_value := qrDestUrl;
                     preview_size := (1024 / 8)%Q;
                     preview_bgColor := "#ffffff";
                     preview_fgColor := "#000000";
                     preview_level := "Q";
                     includeMargin := false;
                     preview_imageSettings :=
                       Some {| src := u; height := (256 / 8)%Q;
                               width := (256 / 8)%Q; excavate := true |} |} |}))
  ∧ ∀ st, reachable st →
      ∃ p, QRCodeSVG_props st = Return p
           ∧ render st
             = Return {| header := BlurImage (favicon_url apexDomain) apexDomain 40 40;
                         preview := p |}.
Proof.
  intros Hd. split.
  - assert (Hfav : destructure (favicon getApexDomain props)
                   = Return (favicon_url apexDomain, apexDomain)).
    { unfold favicon. by rewrite Hd. }
    unfold QRModal.first_render. rewrite Hfav. cbn [cbind].
    destruct qrLogoUrl as [u|e]; cbn [cbind]; [|done].
    unfold LinkQRModalHelper. by rewrite Hfav, QRCodeSVG_props_initial.
  - intros st Hst.
    destruct (reachable_qrData _ _ st Hst) as (_ & _ & _ & _ & Him).
    unfold LinkQRModalHelper, favicon, QRCodeSVG_props. rewrite Hd, Him.
    destruct (showLogo st); simpl; eauto.
Qed.

(** What the memo of the logo URL returns. *)
Lemma qrLogoUrl_own_logo (l : string) :
  logo mounted_project = Some l → l ≠ "" → qrLogoUrl = Return l.
Proof.
  intros Hlogo Hne. unfold QRModal.qrLogoUrl. rewrite Hlogo. by destruct l.
Qed.

(** X10: when the project has the same non-empty logo at the first render
    and at the click, and the logo is shown, the preview, the PNG and JPEG
    options and the SVG options all embed that logo. *)
Theorem project_logo_everywhere (st : State) (l : string) :
  qrLogoUrl = Return logoUrl → reachable st →
  logo mounted_project = Some l → logo project = Some l → l ≠ "" →
  showLogo st = true →
  (∃ p im, QRCodeSVG_props st = Return p
           ∧ preview_imageSettings p = Some im ∧ src im = l)
  ∧ (∃ im, imageSettings (canvas_options st) = Some im ∧ src im = l)
  ∧ (∃ im, svg_imageSettings (svg_options project st) = Some im ∧ spread_src im = l).
Proof.
  intros Hmemo Hst Hmounted Hlogo Hne Hshow.
  destruct (reachable_qrData _ _ st Hst) as (_ & _ & _ & _ & Him).
  rewrite (qrLogoUrl_own_logo l Hmounted Hne) in Hmemo. injection Hmemo as <-.
  unfold QRCodeSVG_props, canvas_options, svg_options. rewrite Him, Hshow.
  simpl. repeat split.
  - eauto.
  - eauto.
  - eexists. split; [done|]. simpl. unfold or_else. rewrite Hlogo. by destruct l.
Qed.

(** X11: with the logo shown, the SVG options embed the logo the project has
    at the click, or the logo of the fixed host when it has none then; the
    preview and the PNG and JPEG options embed the logo URL of the first
    render, whatever the project is at the click.  That URL is the logo the
    project had at the first render, or else [/_static/logo.svg] resolved
    against the origin of the page, or else the empty string. *)
Theorem logo_sources (st : State) :
  qrLogoUrl = Return logoUrl → reachable st → showLogo st = true →
  (∃ im, svg_imageSettings (svg_options project st) = Some im
         ∧ spread_src im
           = match logo project with
             | Some (String c l) => String c l
             | _ => "https://dewbie.vercel.app/_static/logo.svg"
             end)
  ∧ (∃ im, imageSettings (canvas_options st) = Some im ∧ src im = logoUrl)
  ∧ (∃ p im, QRCodeSVG_props st = Return p
             ∧ preview_imageSettings p = Some im ∧ src im = logoUrl)
  ∧ match logo mounted_project with
    | Some (String c l) => logoUrl = String c l
    | _ =>
        match window with
        | Some {| origin := String c o |} =>
            URL_href "/_static/logo.svg" (String c o) = Return logoUrl
        | _ => logoUrl = ""
        end
    end.
Proof.
  intros Hmemo Hst Hshow.
  destruct (reachable_qrData _ _ st Hst) as (_ & _ & _ & _ & Him).
  unfold QRCodeSVG_props, canvas_options, svg_options. rewrite Him, Hshow.
  simpl. split; [|split; [|split]].
  - eexists. split; [done|]. simpl. unfold or_else.
    by destruct (logo project) as [[|c l]|].
  - eauto.
  - eauto.
  - unfold QRModal.qrLogoUrl in Hmemo.
    destruct (logo mounted_project) as [[|c l]|]; simpl in Hmemo.
    + destruct window as [[[|c o] h]|]; simpl in Hmemo; congruence.
    + congruence.
    + destruct window as [[[|c o] h]|]; simpl in Hmemo; congruence.
Qed.

Lemma prefix_app (h : string) :
  String.prefix "app." h = true ↔ ∃ rest, h = "app." +:+ rest.
Proof.
  split.
  - intros H. apply prefix_correct in H. simpl in H.
    destruct h as [|c1 [|c2 [|c3 [|c4 r]]]]; simpl in H; try discriminate.
    injection H as -> -> -> ->. by exists r.
  - intros [r ->]. apply prefix_correct. by destruct r.
Qed.

(** X12: the upgrade tooltip links to [/settings] exactly when the page is
    served from a host that starts with [app.], and to [/#pricing]
    otherwise (also when there is no page). *)
Theorem upgrade_link (plan : option string) (content : TooltipContent)
    (className : string) (switch : SwitchProps) :
  logo_control window plan = WithTooltip content className switch →
  (ctaLink content = "/settings"
   ↔ ∃ w rest, window = Some w ∧ host w = "app." +:+ rest)
  ∧ (ctaLink content ≠ "/settings" → ctaLink content = "/#pricing").
Proof.
  unfold logo_control.
  destruct (negb (truthy plan) || bool_decide (plan = Some "Free")); [|discriminate].
  intros [= <- _ _]. simpl. unfold isApp.
  destruct window as [w|].
  - destruct (String.prefix "app." (host w)) eqn:Hp.
    + apply prefix_app in Hp as [rest Hrest]. split; [|done].
      split; [|done]. intros _. by exists w, rest.
    + split; [|done]. split; [discriminate|].
      intros (w' & rest & [= <-] & Hrest).
      assert (String.prefix "app." (host w) = true) by (apply prefix_app; eauto).
      congruence.
  - split; [|done]. split; [discriminate|]. by intros (w & rest & [=] & _).
Qed.

End PanelFacts.

(** * Sample runs of the further properties *)

Section FurtherSamples.

Import Middleware.

Lemma parse_key_well_formed_sample :
  ∃ r, parse {[ "dub.sh" ]} hebrew_request = Return r
       ∧ key r = [1513; 1500; 1493; 1501]%N
       ∧ well_formed_utf16 (key r) = true.
Proof.
  eexists. split; [vm_compute; reflexivity|]. split; [reflexivity|].
  apply (parse_key_well_formed {[ "dub.sh" ]} hebrew_request).
  vm_compute; reflexivity.
Defined.

Lemma parse_key_length_sample :
  ∃ r, parse {[ "dub.sh" ]} hebrew_request = Return r
       ∧ (length (key r) ≤ 24)%nat.
Proof.
  eexists. split; [vm_compute; reflexivity|].
  apply (parse_key_length {[ "dub.sh" ]} hebrew_request "%D7%A9%D7%9C%D7%95%D7%9D").
  - reflexivity.
  - vm_compute; reflexivity.
Defined.

Lemma parse_plain_key_sample :
  ∃ r, parse {[ "dub.sh" ]} sample_request = Return r
       ∧ key r = JS.code_units "github"
       ∧ path r = "/github/stars".
Proof.
  apply (parse_plain_key {[ "dub.sh" ]} sample_request "github" "/stars").
  - reflexivity.
  - reflexivity.
  - reflexivity.
  - right. by exists "stars".
Defined.

Lemma parse_encoded_key_sample :
  ∃ r, parse {[ "dub.sh" ]} hebrew_request = Return r
       ∧ key r = [1513; 1500; 1493; 1501]%N.
Proof.
  apply (parse_encoded_key {[ "dub.sh" ]} hebrew_request [1513; 1500; 1493; 1501]%N "").
  - vm_compute; reflexivity.
  - repeat constructor.
  - by left.
Defined.

Lemma detectBot_case_insensitive_sample :
  detectBot sample_request = detectBot capitals_request.
Proof.
  apply (detectBot_case_insensitive sample_request capitals_request
           "Mozilla/5.0 (compatible; Googlebot/2.1)"
           "MOZILLA/5.0 (COMPATIBLE; GOOGLEBOT/2.1)").
  - reflexivity.
  - vm_compute; reflexivity.
  - vm_compute; reflexivity.
  - vm_compute; reflexivity.
Defined.

End FurtherSamples.

Section FurtherPanelSamples.

Import QRModal.

Lemma first_render_returns_sample :
  QRModal.first_render sample_getApexDomain sample_linkConstructor sample_URL_href
    sample_props sample_project sample_window
  = Return (sample_initial,
            {| header := BlurImage (favicon_url "github.com") "github.com" 40 40;
               preview :=
                 {| preview_value := "https://dub.sh/github";
                    preview_size := (1024 / 8)%Q;
                    preview_bgColor := "#ffffff";
                    preview_fgColor := "#000000";
                    preview_level := "Q";
                    includeMargin := false;
                    preview_imageSettings :=
                      Some {| src := "https://app.dub.sh/_static/logo.svg";
                              height := (256 / 8)%Q; width := (256 / 8)%Q;
                              excavate := true |} |} |}).
Proof.
  etransitivity.
  - apply (first_render_returns sample_getApexDomain sample_linkConstructor
             sample_URL_href sample_props sample_window sample_project
             sample_destUrl sample_logoUrl "github.com").
    reflexivity.
  - reflexivity.
Defined.

(** On a sandboxed page, whose origin is ["null"], the first render throws. *)
Lemma first_render_sandboxed :
  QRModal.first_render sample_getApexDomain sample_linkConstructor sample_URL_href
    sample_props sample_project sandboxed_window
  = Throw TypeError.
Proof. reflexivity. Qed.

Lemma project_logo_everywhere_sample :
  (∃ p im, QRCodeSVG_props branded_initial = Return p
           ∧ preview_imageSettings p = Some im ∧ src im = "https://acme.co/logo.png")
  ∧ (∃ im, imageSettings (canvas_options branded_initial) = Some im
           ∧ src im = "https://acme.co/logo.png")
  ∧ (∃ im, svg_imageSettings (svg_options branded_project branded_initial) = Some im
           ∧ spread_src im = "https://acme.co/logo.png").
Proof.
  apply (project_logo_everywhere sample_URL_href sample_window branded_project
           branded_project
           (QRModal.qrDestUrl sample_linkConstructor sample_props branded_project)
           "https://acme.co/logo.png" branded_initial "https://acme.co/logo.png").
  - reflexivity.
  - apply reachable_initial.
  - reflexivity.
  - reflexivity.
  - discriminate.
  - reflexivity.
Defined.

(** A panel mounted while the project was loading, clicked once the project
    and its logo are there: the SVG gets the project's logo, the others the
    logo of the page. *)
Lemma logo_sources_sample :
  (∃ im, svg_imageSettings (svg_options branded_project early_initial) = Some im
         ∧ spread_src im = "https://acme.co/logo.png")
  ∧ (∃ im, imageSettings (canvas_options early_initial) = Some im
           ∧ src im = "https://app.dub.sh/_static/logo.svg")
  ∧ (∃ p im, QRCodeSVG_props early_initial = Return p
             ∧ preview_imageSettings p = Some im
             ∧ src im = "https://app.dub.sh/_static/logo.svg")
  ∧ sample_URL_href "/_static/logo.svg" "https://app.dub.sh"
    = Return "https://app.dub.sh/_static/logo.svg".
Proof.
  apply (logo_sources sample_URL_href sample_window loading_project branded_project
           (QRModal.qrDestUrl sample_linkConstructor sample_props loading_project)
           sample_logoUrl early_initial).
  - reflexivity.
  - apply reachable_initial.
  - reflexivity.
Defined.

Lemma upgrade_link_sample :
  ∃ w rest, sample_window = Some w ∧ host w = "app." +:+ rest.
Proof.
  destruct (upgrade_link sample_window (Some "Free")
              {| title := upgrade_title; cta := "Upgrade to Pro"; ctaLink := "/settings" |}
              "pointer-events-none mt-1 flex cursor-not-allowed items-center space-x-2 sm:pointer-events-auto"
              (logo_switch (Some true)) eq_refl) as [[Happ _] _].
  apply Happ. reflexivity.
Defined.

End FurtherPanelSamples.
